(** * NYC Yellow Taxi dashboard: the data pipeline of [app.py]

    A shallow embedding of [_download_if_missing], [load_data] and of the
    filter step of the dashboard script, with the properties of the
    specification stated over it.

    Modelling conventions.
    - A nullable column value is an [option]; [None] is Polars' [null]
      (pandas' [None]/[NaN]/[NaT] after [to_pandas]).
    - A [Datetime] value is the [Z] count of ticks since the Unix epoch,
      in the time unit of the column ([ms], [us] or [ns]).
    - [Float64] columns ([trip_distance], [fare_amount], [total_amount] and
      the derived minutes and speed) are rationals [Q]: finite values with
      exact arithmetic.  [NaN], the infinities and rounding are outside the
      model.
    - A table is the list of its rows, in order. *)

From Stdlib Require Import ZArith QArith Lia Lqa Ascii String Sorted.
From stdpp Require Import gmap strings list fin_maps.

Local Open Scope Z_scope.

(** ** Constants of the script *)

Definition TRIP_URL : string :=
  "https://d37ci6vzurychx.cloudfront.net/trip-data/yellow_tripdata_2024-01.parquet".
Definition ZONE_URL : string :=
  "https://d37ci6vzurychx.cloudfront.net/misc/taxi_zone_lookup.csv".
Definition TRIP_PATH : string := "data/raw/yellow_tripdata_2024-01.parquet".
Definition ZONE_PATH : string := "data/raw/taxi_zone_lookup.csv".

(** [PAYMENT_MAP], a dict with integer keys. *)
Definition PAYMENT_MAP : gmap Z string :=
  <[1 := "Credit Card"]> (<[2 := "Cash"]> (<[3 := "No Charge"]>
    (<[4 := "Dispute"]> (<[5 := "Unknown"]> ∅)))).

Definition DAY_ORDER : list string :=
  ["Monday"; "Tuesday"; "Wednesday"; "Thursday"; "Friday"; "Saturday"; "Sunday"].

(** ** Nullable expressions (Polars) *)

Module Pl.

(** Element-wise binary operation: [null] if either operand is. *)
Definition lift2 {A B C} (f : A → B → C) (a : option A) (b : option B)
  : option C :=
  match a, b with
  | Some x, Some y => Some (f x y)
  | _, _ => None
  end.

(** Element-wise unary operation: [null] stays [null]. *)
Definition lift1 {A B} (f : A → B) (a : option A) : option B :=
  match a with
  | Some x => Some (f x)
  | None => None
  end.

(** [a & b] on nullable booleans (Kleene logic). *)
Definition and (a b : option bool) : option bool :=
  match a, b with
  | Some false, _ => Some false
  | _, Some false => Some false
  | Some true, Some true => Some true
  | _, _ => None
  end.

(** The rows kept by [DataFrame.filter]: those whose predicate is [true];
    [false] and [null] are both discarded. *)
Definition holds (p : option bool) : bool :=
  match p with
  | Some true => true
  | _ => false
  end.

Definition filter {A} (pred : A → option bool) (df : list A) : list A :=
  List.filter (λ r, holds (pred r)) df.

Definition is_not_null {A} (a : option A) : bool :=
  match a with
  | Some _ => true
  | None => false
  end.

(** [pl.when(c).then(a).otherwise(None)]. *)
Definition when_then_otherwise_null {A} (c : option bool) (a : option A)
  : option A :=
  if holds c then a else None.

(** [df.join(right, on=key, how="left")] where [right] has been projected
    to the key and the payload columns: every left row is paired with the
    payload of each right row of equal key, or once with an absent payload
    when there is none.  Null keys match nothing. *)
Definition key_matches (k k' : option Z) : bool :=
  match k, k' with
  | Some a, Some b => Z.eqb a b
  | _, _ => false
  end.

Definition join_left {L R P} (lkey : L → option Z) (rkey : R → option Z)
    (payload : R → P) (absent : P) (right : list R) (df : list L)
  : list (L * P) :=
  flat_map
    (λ l, match List.filter (λ r, key_matches (lkey l) (rkey r)) right with
          | [] => [(l, absent)]
          | found => List.map (λ r, (l, payload r)) found
          end)
    df.

(** [Expr.map_elements(f)] with the default [skip_nulls=True]: the Python
    function is not called on a null element, which stays null. *)
Definition map_elements {A B} (f : A → B) (a : option A) : option B :=
  match a with
  | Some x => Some (f x)
  | None => None
  end.

End Pl.

(** ** Comparisons on the numeric columns *)

Definition Qgtb (x y : Q) : bool := negb (Qle_bool x y).
Definition Qleb (x y : Q) : bool := Qle_bool x y.
Definition Zgtb (x y : Z) : bool := Z.ltb y x.

(** ** Time *)

Inductive TimeUnit := ms | us | ns.

Definition ticks_per_second (tu : TimeUnit) : Z :=
  match tu with
  | ms => 1000
  | us => 1000000
  | ns => 1000000000
  end.

(** The difference of two [Datetime] values is a [Duration], an [Int64]
    count of ticks: the subtraction wraps around at 64 bits. *)
Definition wrap_int64 (z : Z) : Z := (z + 2 ^ 63) mod 2 ^ 64 - 2 ^ 63.
Definition sub_int64 (a b : Z) : Z := wrap_int64 (a - b).

(** [Duration.dt.total_seconds()]: whole seconds, an [Int64]; the fraction
    of a second is cut off. *)
Definition total_seconds (tu : TimeUnit) (d : Z) : Z :=
  Z.quot d (ticks_per_second tu).

(** Seconds and days since the epoch of a timestamp (rounded down). *)
Definition epoch_seconds (tu : TimeUnit) (t : Z) : Z := t / ticks_per_second tu.
Definition epoch_days (tu : TimeUnit) (t : Z) : Z := epoch_seconds tu t / 86400.

(** [dt.hour()]. *)
Definition hour (tu : TimeUnit) (t : Z) : Z :=
  (epoch_seconds tu t mod 86400) / 3600.

(** [dt.strftime("%A")]: 1970-01-01 was a Thursday. *)
Definition weekday (tu : TimeUnit) (t : Z) : nat :=
  Z.to_nat ((epoch_days tu t + 3) mod 7).

Definition strftime_A (tu : TimeUnit) (t : Z) : string :=
  nth (weekday tu t) DAY_ORDER "".

(** Days since the epoch of a civil date (proleptic Gregorian calendar), and
    the timestamp of a civil date and time; used to write inputs down. *)
Definition days_from_civil (y m d : Z) : Z :=
  let y' := if m <=? 2 then y - 1 else y in
  let era := y' / 400 in
  let yoe := y' - era * 400 in
  let mp := (m + 9) mod 12 in
  let doy := (153 * mp + 2) / 5 + d - 1 in
  let doe := yoe * 365 + yoe / 4 - yoe / 100 + doy in
  era * 146097 + doe - 719468.

Definition datetime (tu : TimeUnit) (y m d hh mm ss : Z) : Z :=
  (days_from_civil y m d * 86400 + hh * 3600 + mm * 60 + ss)
  * ticks_per_second tu.

(** ** Rows *)

(** The columns of the trip file that the script reads.  The other columns
    of the file are carried along unchanged and are left out. *)
Record RawTrip := mkRawTrip {
  tpep_pickup_datetime : option Z;
  tpep_dropoff_datetime : option Z;
  PULocationID : option Z;
  DOLocationID : option Z;
  trip_distance : option Q;
  fare_amount : option Q;
  total_amount : option Q;
  payment_type : option Z;
}.

(** A row of [taxi_zone_lookup.csv]. *)
Record ZoneRow := mkZoneRow {
  LocationID : option Z;
  Borough : option string;
  Zone : option string;
}.

(** The columns added by the first [with_columns]. *)
Record Features := mkFeatures {
  f_trip_duration_minutes : option Q;
  f_pickup_hour : option Z;
  f_pickup_day_of_week : option string;
}.

(** The two columns a zone join adds. *)
Record ZoneCols := mkZoneCols {
  zc_zone : option string;
  zc_borough : option string;
}.

(** A row of the table [load_data] returns. *)
Record Trip := mkTrip {
  raw : RawTrip;
  trip_duration_minutes : option Q;
  pickup_hour : option Z;
  pickup_day_of_week : option string;
  trip_speed_mph : option Q;
  pickup_zone : option string;
  pickup_borough : option string;
  dropoff_zone : option string;
  dropoff_borough : option string;
  payment_label : option string;
}.

(** ** [load_data] *)

(** [df.drop_nulls(subset=critical_cols)]. *)
Definition critical_not_null (r : RawTrip) : bool :=
  Pl.is_not_null (tpep_pickup_datetime r)
  && Pl.is_not_null (tpep_dropoff_datetime r)
  && Pl.is_not_null (PULocationID r)
  && Pl.is_not_null (DOLocationID r)
  && Pl.is_not_null (fare_amount r).

Definition drop_nulls (df : list RawTrip) : list RawTrip :=
  List.filter critical_not_null df.

(** The predicate of [df.filter(...)]. *)
Definition valid_expr (r : RawTrip) : option bool :=
  Pl.and
    (Pl.and
       (Pl.and (Pl.lift2 Qgtb (trip_distance r) (Some 0%Q))
               (Pl.lift2 Qgtb (fare_amount r) (Some 0%Q)))
       (Pl.lift2 Qleb (fare_amount r) (Some 500%Q)))
    (Pl.lift2 Zgtb (tpep_dropoff_datetime r) (tpep_pickup_datetime r)).

Definition cleaning (df : list RawTrip) : list RawTrip :=
  Pl.filter valid_expr (drop_nulls df).

(** Feature engineering.  The division of the [Int64] seconds by 60 is a
    true division: the seconds become a [Float64] first. *)
Definition features (tu : TimeUnit) (r : RawTrip) : Features :=
  {| f_trip_duration_minutes :=
       Pl.lift2 Qdiv
         (Pl.lift1 inject_Z
            (Pl.lift1 (total_seconds tu)
               (Pl.lift2 sub_int64 (tpep_dropoff_datetime r)
                                   (tpep_pickup_datetime r))))
         (Some 60%Q);
     f_pickup_hour := Pl.lift1 (hour tu) (tpep_pickup_datetime r);
     f_pickup_day_of_week :=
       Pl.lift1 (strftime_A tu) (tpep_pickup_datetime r) |}.

(** Speed, guarded against a zero duration. *)
Definition speed (rf : RawTrip * Features) : option Q :=
  let '(r, f) := rf in
  Pl.when_then_otherwise_null
    (Pl.lift2 Qgtb (f_trip_duration_minutes f) (Some 0%Q))
    (Pl.lift2 Qdiv (trip_distance r)
       (Pl.lift2 Qdiv (f_trip_duration_minutes f) (Some 60%Q))).

(** [zones.rename(...).select([key, zone, borough])] keeps these columns. *)
Definition zone_cols (z : ZoneRow) : ZoneCols :=
  {| zc_zone := Zone z; zc_borough := Borough z |}.

Definition no_zone : ZoneCols := {| zc_zone := None; zc_borough := None |}.

(** [PAYMENT_MAP.get(x, "Unknown")]. *)
Definition payment_get (x : Z) : string := default "Unknown" (PAYMENT_MAP !! x).

(** The [payment_label] column; the cast to [Int64] is the identity on the
    integer codes. *)
Definition payment_label_expr (code : option Z) : option string :=
  Pl.map_elements payment_get code.

Definition to_pandas
    (x : RawTrip * Features * option Q * ZoneCols * ZoneCols * option string)
  : Trip :=
  let '(r, f, s, pu, do, lbl) := x in
  {| raw := r;
     trip_duration_minutes := f_trip_duration_minutes f;
     pickup_hour := f_pickup_hour f;
     pickup_day_of_week := f_pickup_day_of_week f;
     trip_speed_mph := s;
     pickup_zone := zc_zone pu;
     pickup_borough := zc_borough pu;
     dropoff_zone := zc_zone do;
     dropoff_borough := zc_borough do;
     payment_label := lbl |}.

(** The pipeline of [load_data] after the two files have been read: [tu] is
    the time unit of the two timestamp columns, [trips] the rows of the trip
    file and [zones] those of the zone lookup. *)
Definition load_data (tu : TimeUnit) (trips : list RawTrip)
    (zones : list ZoneRow) : list Trip :=
  let df := cleaning trips in
  let df := List.map (λ r, (r, features tu r)) df in
  let df := List.map (λ rf, (rf, speed rf)) df in
  let df := Pl.join_left (λ x, PULocationID (fst (fst x))) LocationID
              zone_cols no_zone zones df in
  let df := Pl.join_left (λ x, DOLocationID (fst (fst (fst x)))) LocationID
              zone_cols no_zone zones df in
  let df := List.map
              (λ x, (x, payment_label_expr (payment_type (fst (fst (fst (fst x)))))))
              df in
  List.map to_pandas df.

(** ** The fetcher *)

(** Exceptions of the Python run time that the modelled code can raise. *)
Inductive Exn :=
| FileNotFoundError
| FileExistsError
| NotADirectoryError
| IsADirectoryError
| ConnectionError
| HTTPError (status : Z)
| ChunkedEncodingError
| IndexError.

Inductive Result (A : Type) :=
| Ok (a : A)
| Raise (e : Exn).
Arguments Ok {A} a.
Arguments Raise {A} e.

#[global] Instance Result_ret : MRet Result := λ A a, Ok a.
#[global] Instance Result_bind : MBind Result := λ A B k m,
  match m with
  | Ok a => k a
  | Raise e => Raise e
  end.

(** What the server answers to a GET: a status, and the body as the pieces
    in which the transport hands it over; where the pieces are cut is the
    transport's business.  When [drops_after] is [Some k] the connection
    breaks after [k] pieces have been delivered. *)
Record Response := mkResponse {
  status_code : Z;
  pieces : list (list Byte.byte);
  drops_after : option nat;
}.

(** The complete body of the resource. *)
Definition body (r : Response) : list Byte.byte := concat (pieces r).

(** The local file system and the network, as the fetcher sees them:
    regular files with their content, directories, the remote resources, and
    the log of the requests sent so far.  A node is named by the spelling of
    its path: two spellings of one location (["a//b"], ["a/./b"]) are two
    names, and the properties that depend on it are stated for paths in
    plain form.  Permissions, symbolic links and a full disk are not
    modelled. *)
Record World := mkWorld {
  files : gmap string (list Byte.byte);
  dirs : gset string;
  remote : string → option Response;
  requests_sent : list string;
}.

Definition slash : Ascii.ascii := "/"%char.

Fixpoint upto_last_slash (p : string) : option string :=
  match p with
  | EmptyString => None
  | String c rest =>
      match upto_last_slash rest with
      | Some h => Some (String c h)
      | None => if Ascii.eqb c slash then Some (String c EmptyString) else None
      end
  end.

Fixpoint all_slashes (s : string) : bool :=
  match s with
  | EmptyString => true
  | String c rest => Ascii.eqb c slash && all_slashes rest
  end.

Fixpoint rstrip_slashes (s : string) : string :=
  match s with
  | EmptyString => EmptyString
  | String c rest => if all_slashes s then EmptyString
                     else String c (rstrip_slashes rest)
  end.

(** [os.path.dirname] (posixpath): the part up to the last slash, without
    trailing slashes unless it is made of slashes only. *)
Definition dirname (p : string) : string :=
  let head := default EmptyString (upto_last_slash p) in
  if all_slashes head then head else rstrip_slashes head.

Definition starts_with_slash (s : string) : bool :=
  match s with
  | String c _ => Ascii.eqb c slash
  | EmptyString => false
  end.

Fixpoint ends_with_slash (s : string) : bool :=
  match s with
  | EmptyString => false
  | String c EmptyString => Ascii.eqb c slash
  | String _ rest => ends_with_slash rest
  end.

(** The components of a path, the parts between its slashes. *)
Fixpoint components (p : string) : list string :=
  match p with
  | EmptyString => [EmptyString]
  | String c rest =>
      if Ascii.eqb c slash then EmptyString :: components rest
      else match components rest with
           | h :: t => String c h :: t
           | [] => [String c EmptyString]
           end
  end.

(** A component that names an entry of its directory. *)
Definition plain_component (c : string) : bool :=
  negb (String.eqb c EmptyString) && negb (String.eqb c ".")
  && negb (String.eqb c "..").

(** A path in plain form: no empty, [.] or [..] component, apart from the
    empty first component of an absolute path, and no trailing slash. *)
Definition plain_path (p : string) : bool :=
  negb (ends_with_slash p)
  && forallb plain_component
       (match components p with
        | EmptyString :: ((_ :: _) as cs) => cs
        | cs => cs
        end).

(** [os.path.exists]: a regular file of that name, or a directory, which
    may be spelled with trailing slashes. *)
Definition path_exists (path : string) (w : World) : bool :=
  bool_decide (is_Some (files w !! path))
  || bool_decide ((if all_slashes path then path else rstrip_slashes path)
                  ∈ dirs w).

(** The directories above [d], nearest first, by repeated [dirname]. *)
Fixpoint parents_upto (n : nat) (d : string) : list string :=
  match n with
  | O => []
  | S n' =>
      let h := dirname d in
      if String.eqb h EmptyString || String.eqb h d then []
      else h :: parents_upto n' h
  end.

Definition parents (d : string) : list string :=
  parents_upto (String.length d) d.

(** [os.makedirs(d, exist_ok=True)]: the empty name does not exist; a
    regular file above [d] or in the place of [d] is an error, and nothing
    is made then; an existing directory is not an error.  Otherwise [d] and
    the directories above it exist afterwards. *)
Definition makedirs (d : string) (w : World) : Result World :=
  if String.eqb d EmptyString then Raise FileNotFoundError
  else if existsb (λ a, bool_decide (is_Some (files w !! a))) (parents d)
  then Raise NotADirectoryError
  else if bool_decide (is_Some (files w !! d)) then Raise FileExistsError
  else Ok {| files := files w;
             dirs := list_to_set (d :: parents d) ∪ dirs w;
             remote := remote w; requests_sent := requests_sent w |}.

(** [requests.get(url, stream=True)]: the request is sent, and answered or
    not. *)
Definition requests_get (url : string) (w : World) : World * Result Response :=
  ({| files := files w; dirs := dirs w; remote := remote w;
      requests_sent := requests_sent w ++ [url] |},
   match remote w url with
   | Some r => Ok r
   | None => Raise ConnectionError
   end).

(** [r.raise_for_status()]. *)
Definition raise_for_status (r : Response) : Result unit :=
  if (400 <=? status_code r) && (status_code r <? 600)
  then Raise (HTTPError (status_code r))
  else Ok tt.

(** A path that can only name a directory: it ends with a slash, or with a
    [.] or [..] component. *)
Definition names_directory (path : string) : bool :=
  ends_with_slash path
  || negb (plain_component (List.last (components path) EmptyString)).

(** [open(path, "wb")] creates the file or empties it.  It fails on the
    empty path, on a path that names a directory, and when the directory
    of the path is missing or is a regular file. *)
Definition create_file (path : string) (w : World) : World :=
  {| files := <[path := []]> (files w); dirs := dirs w;
     remote := remote w; requests_sent := requests_sent w |}.

Definition open_wb (path : string) (w : World) : Result World :=
  if String.eqb path EmptyString then Raise FileNotFoundError
  else if names_directory path || bool_decide (path ∈ dirs w)
  then Raise IsADirectoryError
  else if String.eqb (dirname path) EmptyString then Ok (create_file path w)
  else if bool_decide (is_Some (files w !! dirname path))
  then Raise NotADirectoryError
  else if bool_decide (dirname path ∈ dirs w) then Ok (create_file path w)
  else Raise FileNotFoundError.

(** [f.write(chunk)] appends to the file. *)
Definition write (path : string) (chunk : list Byte.byte) (w : World) : World :=
  {| files := alter (λ old, old ++ chunk) path (files w); dirs := dirs w;
     remote := remote w; requests_sent := requests_sent w |}.

Definition is_empty_piece (c : list Byte.byte) : bool :=
  match c with
  | [] => true
  | _ => false
  end.

(** [r.iter_content(chunk_size)]: the pieces delivered, none of them empty,
    and whether the stream then ends with an error.  The chunk size is a
    hint to the transport and does not decide where the pieces are cut. *)
Definition iter_content (chunk_size : Z) (r : Response)
  : list (list Byte.byte) * bool :=
  let cs := List.filter (λ c, negb (is_empty_piece c)) (pieces r) in
  match drops_after r with
  | Some k => (take k cs, bool_decide (k < length cs)%nat)
  | None => (cs, false)
  end.

Definition write_all (path : string) (cs : list (list Byte.byte)) (w : World)
  : World :=
  fold_left (λ w chunk, write path chunk w) cs w.

Definition chunk_size : Z := Z.shiftl 1 20.

(** The world after the call, and the exception it ends with, if any. *)
Definition _download_if_missing (url path : string) (w : World)
  : World * option Exn :=
  if negb (path_exists path w) then
    match makedirs (dirname path) w with
    | Raise e => (w, Some e)
    | Ok w1 =>
        match requests_get url w1 with
        | (w2, Raise e) => (w2, Some e)
        | (w2, Ok r) =>
            match raise_for_status r with
            | Raise e => (w2, Some e)
            | Ok _ =>
                match open_wb path w2 with
                | Raise e => (w2, Some e)
                | Ok w3 =>
                    let '(cs, broken) := iter_content chunk_size r in
                    let w4 := write_all path cs w3 in
                    (w4, if broken then Some ChunkedEncodingError else None)
                end
            end
        end
    end
  else (w, None).

(** ** The dashboard script, from the filter step on *)

(** pandas: a comparison with a missing value is [False]. *)
Definition pd_cmp {A} (cmp : A → A → bool) (a : option A) (b : A) : bool :=
  match a with
  | Some x => cmp x b
  | None => false
  end.

(** [Series.dropna()], [Series.unique()] (first occurrences, in order) and
    [sorted] on strings. *)
Definition dropna {A} (col : list (option A)) : list A := omap id col.

Fixpoint unique_from (seen : list string) (l : list string) : list string :=
  match l with
  | [] => []
  | x :: l' => if bool_decide (x ∈ seen) then unique_from seen l'
               else x :: unique_from (x :: seen) l'
  end.

Definition unique (l : list string) : list string := unique_from [] l.

Fixpoint insert_sorted (x : string) (l : list string) : list string :=
  match l with
  | [] => [x]
  | y :: l' => if String.leb x y then x :: l else y :: insert_sorted x l'
  end.

Definition sorted (l : list string) : list string :=
  foldr insert_sorted [] l.

(** [Series.isin(values)]; a missing label is in no list of strings. *)
Definition isin (a : option string) (values : list string) : bool :=
  match a with
  | Some x => bool_decide (x ∈ values)
  | None => false
  end.

(** What [st.sidebar.date_input] returns: one date, or a tuple of dates
    (of length 0, 1 or 2 while a range is being picked).  A date is its
    number of days since the epoch. *)
Inductive DateInput :=
| OneDate (d : Z)
| Dates (ds : list Z).

(** The values of the three sidebar widgets. *)
Record Widgets := mkWidgets {
  date_range : DateInput;
  hour_range : Z * Z;
  selected_payments : list string;
}.

(** Lines 136-139: the start and end date. *)
Definition date_bounds (dr : DateInput) : Result (Z * Z) :=
  match dr with
  | Dates [a; b] => Ok (a, b)
  | Dates (a :: _) => Ok (a, a)
  | Dates [] => Raise IndexError
  | OneDate d => Ok (d, d)
  end.

(** Line 127. *)
Definition all_payment_types (df_full : list Trip) : list string :=
  sorted (unique (dropna (List.map payment_label df_full))).

(** The list given to [isin]: an empty selection is falsy. *)
Definition wanted_payments (df_full : list Trip) (sel : list string)
  : list string :=
  match sel with
  | [] => all_payment_types df_full
  | _ => sel
  end.

(** [df_full["tpep_pickup_datetime"].dt.normalize().dt.date], row by row. *)
Definition pickup_date (tu : TimeUnit) (t : Trip) : option Z :=
  Pl.lift1 (epoch_days tu) (tpep_pickup_datetime (raw t)).

(** Lines 142-148: the boolean mask, row by row. *)
Definition mask (tu : TimeUnit) (df_full : list Trip) (start_date end_date : Z)
    (hours : Z * Z) (sel : list string) (t : Trip) : bool :=
  pd_cmp Z.geb (pickup_date tu t) start_date
  && pd_cmp Z.leb (pickup_date tu t) end_date
  && pd_cmp Z.geb (pickup_hour t) (fst hours)
  && pd_cmp Z.leb (pickup_hour t) (snd hours)
  && isin (payment_label t) (wanted_payments df_full sel).

(** Line 149: [df_full[mask].copy()]. *)
Definition apply_filters (tu : TimeUnit) (df_full : list Trip) (w : Widgets)
  : Result (list Trip) :=
  '(start_date, end_date) ← date_bounds (date_range w);
  mret (List.filter
          (mask tu df_full start_date end_date (hour_range w)
                (selected_payments w))
          df_full).

(** The Streamlit calls of a run; the text is kept for the notices only and
    a chart is named by its figure variable. *)
Inductive UI :=
| st_warning (msg : string)
| st_info (msg : string)
| st_title
| st_markdown
| st_subheader
| st_metric (label : string)
| st_divider
| st_tabs
| st_plotly_chart (fig : string)
| st_caption.

(** How a run of the script ends: at its last line, at [st.stop()], or with
    an uncaught exception. *)
Inductive Status :=
| Completed
| Stopped
| Crashed (e : Exn).

(** The variables of the script that hold tables, and what has been put on
    the page.  A variable not yet assigned is [None]. *)
Record Env := mkEnv {
  v_df_full : list Trip;
  v_df : option (list Trip);
  v_dist_clipped : option (list (option Q));
  v_ui : list UI;
}.

Definition assign_df (df : list Trip) (e : Env) : Env :=
  {| v_df_full := v_df_full e; v_df := Some df;
     v_dist_clipped := v_dist_clipped e; v_ui := v_ui e |}.

Definition assign_dist_clipped (c : list (option Q)) (e : Env) : Env :=
  {| v_df_full := v_df_full e; v_df := v_df e;
     v_dist_clipped := Some c; v_ui := v_ui e |}.

Definition emit (calls : list UI) (e : Env) : Env :=
  {| v_df_full := v_df_full e; v_df := v_df e;
     v_dist_clipped := v_dist_clipped e; v_ui := v_ui e ++ calls |}.

(** Line 245: [df[df["trip_distance"] <= 30]["trip_distance"]]. *)
Definition clip_distances (df : list Trip) : list (option Q) :=
  List.map (λ t, trip_distance (raw t))
    (List.filter (λ t, pd_cmp Qleb (trip_distance (raw t)) 30%Q) df).

(** Line 298: the grouped table is empty when no row has both keys. *)
Definition heatmap_data_empty (df : list Trip) : bool :=
  forallb (λ t, negb (Pl.is_not_null (pickup_day_of_week t)
                      && Pl.is_not_null (pickup_hour t))) df.

Definition NO_TRIPS : string :=
  "No trips match the current filters. Please adjust your sidebar selections.".
Definition NO_HEATMAP : string :=
  "Not enough data to display the heatmap for the current filters.".

(** Lines 157-327: header, metrics and the five tabs. *)
Definition render (df : list Trip) (e : Env) : Env :=
  let e := emit [st_title; st_markdown] e in
  let e := emit [st_subheader; st_metric "Total Trips"; st_metric "Avg Fare";
                 st_metric "Total Revenue"; st_metric "Avg Distance (mi)";
                 st_metric "Avg Duration (min)"; st_divider; st_tabs] e in
  let e := emit [st_subheader; st_plotly_chart "fig1"; st_caption] e in
  let e := emit [st_subheader; st_plotly_chart "fig2"; st_caption] e in
  let e := assign_dist_clipped (clip_distances df) (emit [st_subheader] e) in
  let e := emit [st_plotly_chart "fig3"; st_caption] e in
  let e := emit [st_subheader; st_plotly_chart "fig4"; st_caption] e in
  let e := emit [st_subheader] e in
  let e := if heatmap_data_empty df then emit [st_info NO_HEATMAP] e
           else emit [st_plotly_chart "fig5"; st_caption] e in
  emit [st_divider; st_markdown] e.

(** Lines 134-327, for the unified table [df_full] and the widget values. *)
Definition script (tu : TimeUnit) (df_full : list Trip) (w : Widgets)
  : Status * Env :=
  let e := {| v_df_full := df_full; v_df := None; v_dist_clipped := None;
              v_ui := [] |} in
  match apply_filters tu df_full w with
  | Raise ex => (Crashed ex, e)
  | Ok df =>
      let e := assign_df df e in
      match df with
      | [] => (Stopped, emit [st_warning NO_TRIPS] e)
      | _ => (Completed, render df e)
      end
  end.

Definition is_chart (c : UI) : bool :=
  match c with
  | st_plotly_chart _ => true
  | _ => false
  end.

(** ** Properties stated by the specification *)

(** The admission invariants of a trip record, as the specification lists
    them. *)
Definition admission_invariants (r : RawTrip) : Prop :=
  (∃ p d, tpep_pickup_datetime r = Some p ∧ tpep_dropoff_datetime r = Some d
          ∧ p < d)
  ∧ (∃ x, trip_distance r = Some x ∧ (0 < x)%Q)
  ∧ (∃ f, fare_amount r = Some f ∧ (0 < f)%Q ∧ (f <= 500)%Q)
  ∧ tpep_pickup_datetime r ≠ None
  ∧ tpep_dropoff_datetime r ≠ None
  ∧ PULocationID r ≠ None
  ∧ DOLocationID r ≠ None
  ∧ fare_amount r ≠ None.

(** The zone columns a left join may attach to key [k]: those of a zone row
    with that key, or absent ones when no zone row has it. *)
Definition zone_choice (zones : list ZoneRow) (k : option Z) (zc : ZoneCols)
  : Prop :=
  ((∀ z, In z zones → Pl.key_matches k (LocationID z) = false) ∧ zc = no_zone)
  ∨ (∃ z, In z zones ∧ Pl.key_matches k (LocationID z) = true
          ∧ zc = zone_cols z).

(** [location_id] is a unique key of the zone table (data model). *)
Definition unique_zone_ids (zones : list ZoneRow) : Prop :=
  NoDup (dropna (List.map LocationID zones)).

(** The zone columns of key [k] in a zone table with unique keys. *)
Definition zone_lookup (zones : list ZoneRow) (k : option Z) : ZoneCols :=
  match List.filter (λ z, Pl.key_matches k (LocationID z)) zones with
  | [] => no_zone
  | z :: _ => zone_cols z
  end.

(** A row whose pickup date and pickup hour are within the selected
    intervals, bounds included. *)
Definition within_intervals (tu : TimeUnit) (start_date end_date : Z)
    (hours : Z * Z) (t : Trip) : Prop :=
  ∃ p h, tpep_pickup_datetime (raw t) = Some p
         ∧ start_date <= epoch_days tu p <= end_date
         ∧ pickup_hour t = Some h
         ∧ fst hours <= h <= snd hours.

(** The unified row built from an admitted raw row and its zone columns. *)
Definition unified_row (tu : TimeUnit) (r : RawTrip) (pu do : ZoneCols) : Trip :=
  to_pandas (r, features tu r, speed (r, features tu r), pu, do,
             payment_label_expr (payment_type r)).

(** The payment enumeration, as the specification gives it: the labels
    of the codes 1 to 5, and "Unknown" for any other code. *)
Definition label_of_code (c : Z) : string :=
  match c with
  | 1 => "Credit Card"
  | 2 => "Cash"
  | 3 => "No Charge"
  | 4 => "Dispute"
  | 5 => "Unknown"
  | _ => "Unknown"
  end.

(** ** Sample data *)

Definition sample_zones : list ZoneRow :=
  [ mkZoneRow (Some 1) (Some "EWR") (Some "Newark Airport");
    mkZoneRow (Some 132) (Some "Queens") (Some "JFK Airport");
    mkZoneRow (Some 161) (Some "Manhattan") (Some "Midtown Center") ].

Definition sample_midtown : ZoneCols :=
  zone_cols (mkZoneRow (Some 161) (Some "Manhattan") (Some "Midtown Center")).
Definition sample_jfk : ZoneCols :=
  zone_cols (mkZoneRow (Some 132) (Some "Queens") (Some "JFK Airport")).

(** Row A: a fare of zero. *)
Definition row_A : RawTrip :=
  mkRawTrip (Some (datetime us 2024 1 3 9 0 0)) (Some (datetime us 2024 1 3 9 20 0))
            (Some 161) (Some 132) (Some 3.1%Q) (Some 0%Q) (Some 1.5%Q) (Some 2).

(** Row B: dropped off before being picked up. *)
Definition row_B : RawTrip :=
  mkRawTrip (Some (datetime us 2024 1 4 18 30 0)) (Some (datetime us 2024 1 4 18 10 0))
            (Some 132) (Some 161) (Some 7.4%Q) (Some 30%Q) (Some 36%Q) (Some 1).

(** Row C: valid. *)
Definition row_C : RawTrip :=
  mkRawTrip (Some (datetime us 2024 1 5 4 0 0)) (Some (datetime us 2024 1 5 4 15 0))
            (Some 161) (Some 999) (Some 2.5%Q) (Some 12.5%Q) (Some 16%Q) (Some 1).

(** Row D: valid, lasting half a second, with no payment code. *)
Definition row_D : RawTrip :=
  mkRawTrip (Some (datetime us 2024 1 6 12 0 0))
            (Some (datetime us 2024 1 6 12 0 0 + 500000))
            (Some 132) (Some 132) (Some 0.1%Q) (Some 3%Q) (Some 4%Q) None.

Definition sample_trips : list RawTrip := [row_A; row_B; row_C; row_D].

(** A server that knows the zone lookup only, a machine that has not fetched
    anything yet, and one that holds a (cut short) copy of the lookup. *)
Definition sample_response : Response :=
  mkResponse 200 [[Byte.x4c; Byte.x6f]; [Byte.x63; Byte.x0a]] None.

Definition sample_remote (url : string) : option Response :=
  if String.eqb url ZONE_URL then Some sample_response else None.

Definition sample_world_fresh : World :=
  mkWorld ∅ ∅ sample_remote [].


Definition sample_table : list Trip := load_data us sample_trips sample_zones.

(** January 2024, every hour; no payment type selected, and only "Cash". *)
Definition sample_widgets_none : Widgets :=
  mkWidgets (Dates [19723; 19753]) (0, 23) [].
Definition sample_widgets_cash : Widgets :=
  mkWidgets (Dates [19723; 19753]) (0, 23) ["Cash"].

(** ** The rest of the script *)

(** Lines 47-48 of [load_data]: the trip file is fetched first, then the
    zone lookup; an exception of the first call ends [load_data]. *)
Definition fetch_sources (w : World) : World * option Exn :=
  match _download_if_missing TRIP_URL TRIP_PATH w with
  | (w1, Some e) => (w1, Some e)
  | (w1, None) => _download_if_missing ZONE_URL ZONE_PATH w1
  end.

(** [Series.min()] and [Series.max()] skip missing values; there is no
    minimum of nothing. *)
Definition series_min (col : list (option Z)) : option Z :=
  match dropna col with
  | [] => None
  | d :: ds => Some (fold_left Z.min ds d)
  end.

Definition series_max (col : list (option Z)) : option Z :=
  match dropna col with
  | [] => None
  | d :: ds => Some (fold_left Z.max ds d)
  end.

(** Lines 113-114. *)
Definition min_date (tu : TimeUnit) (df_full : list Trip) : option Z :=
  series_min (List.map (pickup_date tu) df_full).
Definition max_date (tu : TimeUnit) (df_full : list Trip) : option Z :=
  series_max (List.map (pickup_date tu) df_full).

(** Lines 116-132: what the three widgets return before the user touches
    them, their [value] and [default] arguments. *)
Definition default_widgets (tu : TimeUnit) (df_full : list Trip)
  : option Widgets :=
  match min_date tu df_full, max_date tu df_full with
  | Some lo, Some hi =>
      Some (mkWidgets (Dates [lo; hi]) (0, 23) (all_payment_types df_full))
  | _, _ => None
  end.

(** [Series.sum()] and [Series.mean()] skip missing values; the mean of
    nothing is missing. *)
Definition Qsum (xs : list Q) : Q := fold_right Qplus 0%Q xs.

Definition series_sum (col : list (option Q)) : Q := Qsum (dropna col).

Definition series_mean (col : list (option Q)) : option Q :=
  match dropna col with
  | [] => None
  | xs => Some (Qsum xs / inject_Z (Z.of_nat (length xs)))%Q
  end.

(** Lines 169-173: the numbers behind the five metrics, before they are
    formatted. *)
Definition kpi_total_trips (df : list Trip) : nat := length df.
Definition kpi_avg_fare (df : list Trip) : option Q :=
  series_mean (List.map (λ t, fare_amount (raw t)) df).
Definition kpi_total_revenue (df : list Trip) : Q :=
  series_sum (List.map (λ t, total_amount (raw t)) df).
Definition kpi_avg_distance (df : list Trip) : option Q :=
  series_mean (List.map (λ t, trip_distance (raw t)) df).
Definition kpi_avg_duration (df : list Trip) : option Q :=
  series_mean (List.map trip_duration_minutes df).

(** [groupby(key, dropna=True).size().reset_index(name=...)] on a column of
    strings: one row per value of the key, in the order of the values, with
    the number of rows that have it; rows without a key are in no group. *)
Definition group_sizes (keys : list (option string)) : list (string * nat) :=
  List.map
    (λ k, (k, length (List.filter (String.eqb k) (dropna keys))))
    (sorted (unique (dropna keys))).

(** Lines 265-269, before [sort_values] reorders the rows by count. *)
Definition pay_counts (df : list Trip) : list (string * nat) :=
  group_sizes (List.map payment_label df).

(** The same [unique] and [sorted] on integers. *)
Fixpoint unique_Z_from (seen : list Z) (l : list Z) : list Z :=
  match l with
  | [] => []
  | x :: l' => if bool_decide (x ∈ seen) then unique_Z_from seen l'
               else x :: unique_Z_from (x :: seen) l'
  end.

Fixpoint insert_sorted_Z (x : Z) (l : list Z) : list Z :=
  match l with
  | [] => [x]
  | y :: l' => if x <=? y then x :: l else y :: insert_sorted_Z x l'
  end.

Definition sorted_Z (l : list Z) : list Z := foldr insert_sorted_Z [] l.

(** Lines 217-223: the mean fare of every pickup hour, by hour.  A row
    without an hour is in no group. *)
Definition fare_by_hour (df : list Trip) : list (Z * option Q) :=
  List.map
    (λ h, (h, series_mean
                (List.map (λ t, fare_amount (raw t))
                   (List.filter (λ t, pd_cmp Z.eqb (pickup_hour t) h) df))))
    (sorted_Z (unique_Z_from [] (dropna (List.map pickup_hour df)))).

(** Lines 291-295: the day column of [heatmap_data]; a row lacking one of
    the two keys is in no group. *)
Definition heatmap_days (df : list Trip) : list string :=
  unique (dropna (List.map
                    (λ t, if Pl.is_not_null (pickup_hour t)
                          then pickup_day_of_week t else None) df)).

(** Line 304: the index of the heatmap, the days present, in week order. *)
Definition heatmap_index (df : list Trip) : list string :=
  List.filter (λ d, bool_decide (d ∈ heatmap_days df)) DAY_ORDER.

(** More sample data: a server that answers the zone lookup with an error
    status. *)
Definition sample_remote_403 (url : string) : option Response :=
  if String.eqb url ZONE_URL then Some (mkResponse 403 [] None) else None.

Definition sample_world_403 : World := mkWorld ∅ ∅ sample_remote_403 [].

(** The world of a fetch once the directory of [path] has been made and
    the request for [url] sent, before the answer is looked at. *)
Definition after_request (url path : string) (w : World) : World :=
  {| files := files w;
     dirs := list_to_set (dirname path :: parents (dirname path)) ∪ dirs w;
     remote := remote w; requests_sent := requests_sent w ++ [url] |}.

(** A server whose answers break off after the first piece. *)
Definition sample_world_broken : World :=
  mkWorld ∅ ∅
    (λ url, Some (mkResponse 200 [[Byte.x4c; Byte.x6f]; [Byte.x63; Byte.x0a]]
                    (Some 1%nat)))
    [].

(** A machine that holds the trip file only. *)
Definition sample_world_trip_only : World :=
  mkWorld {[ TRIP_PATH := [Byte.x50] ]} {[ "data"; "data/raw" ]} sample_remote [].

(** [os.path.join] of two components (posixpath), as lines 24-25 use it:
    an absolute second component replaces the first; otherwise the two are
    put together, with a slash between them unless the first is empty or
    ends with one. *)
Definition path_join (a b : string) : string :=
  if starts_with_slash b then b
  else if String.eqb a EmptyString || ends_with_slash a then a +:+ b
  else a +:+ String slash b.

Definition RAW_DIR : string := "data/raw".

(** ** The pandas objects behind the variables *)














(** ** Membership in the stages of [load_data] *)

Section Membership.

Lemma Qgtb_true x y : Qgtb x y = true ↔ (y < x)%Q.
Proof.
  unfold Qgtb. rewrite negb_true_iff. split.
  - intros H. apply Qnot_le_lt. intros Hle. apply Qle_bool_iff in Hle.
    congruence.
  - intros H. destruct (Qle_bool x y) eqn:E; [|done].
    apply Qle_bool_iff in E. exfalso. eapply Qlt_not_le; eauto.
Qed.

Lemma Qleb_true x y : Qleb x y = true ↔ (x <= y)%Q.
Proof. apply Qle_bool_iff. Qed.

Lemma holds_true p : Pl.holds p = true ↔ p = Some true.
Proof. destruct p as [[]|]; simpl; split; intros H; done. Qed.

Lemma and_true a b : Pl.and a b = Some true ↔ a = Some true ∧ b = Some true.
Proof.
  destruct a as [[]|], b as [[]|]; simpl; split; intros H;
    try discriminate; try done; destruct H; discriminate.
Qed.

Lemma lift2_true {A B} (f : A → B → bool) a b :
  Pl.lift2 f a b = Some true ↔ ∃ x y, a = Some x ∧ b = Some y ∧ f x y = true.
Proof.
  destruct a, b; simpl; split; intros H; try discriminate.
  - injection H as H. eauto.
  - destruct H as (x & y & [= <-] & [= <-] & ->). done.
  - destruct H as (x & y & _ & [=] & _).
  - destruct H as (x & y & [=] & _).
  - destruct H as (x & y & [=] & _).
Qed.

(** A row passes [drop_nulls] and the filter exactly when it satisfies the
    admission invariants. *)
Lemma kept_iff r :
  critical_not_null r && Pl.holds (valid_expr r) = true
  ↔ admission_invariants r.
Proof.
  unfold valid_expr, critical_not_null, admission_invariants.
  rewrite !andb_true_iff, holds_true, !and_true, !lift2_true.
  split.
  - intros [((((Hp & Hd) & Hpu) & Hdo) & Hf) Hv].
    destruct Hv as [[[(x & z & Hx & [= <-] & Hxz) (f & z' & Hf1 & [= <-] & Hf0)]
                      (f' & c & Hf2 & [= <-] & Hf500)]
                    (d & p & Hd' & Hp' & Hdp)].
    rewrite Hf1 in Hf2. injection Hf2 as <-.
    apply Qgtb_true in Hxz, Hf0. apply Qleb_true in Hf500.
    unfold Zgtb in Hdp. apply Z.ltb_lt in Hdp.
    rewrite Hp', Hd', Hf1.
    destruct (PULocationID r), (DOLocationID r); try discriminate.
    repeat split; eauto 7; discriminate.
  - intros ((p & d & Hp & Hd & Hpd) & (x & Hx & Hx0)
            & (f & Hf & Hf0 & Hf500) & _ & _ & Hpu & Hdo & _).
    rewrite Hp, Hd, Hf, Hx.
    destruct (PULocationID r); [|done]. destruct (DOLocationID r); [|done].
    repeat split; try done.
    + exists x, 0%Q. by rewrite Qgtb_true.
    + exists f, 0%Q. by rewrite Qgtb_true.
    + exists f, 500%Q. by rewrite Qleb_true.
    + exists d, p. repeat split. unfold Zgtb. by apply Z.ltb_lt.
Qed.

Lemma cleaning_cons r trips :
  cleaning (r :: trips) =
  if critical_not_null r && Pl.holds (valid_expr r)
  then r :: cleaning trips else cleaning trips.
Proof.
  unfold cleaning, Pl.filter, drop_nulls. simpl.
  destruct (critical_not_null r); simpl; [|done].
  by destruct (Pl.holds (valid_expr r)).
Qed.

Lemma in_cleaning r trips :
  In r (cleaning trips) ↔ In r trips ∧ admission_invariants r.
Proof.
  rewrite <- kept_iff. unfold cleaning, Pl.filter, drop_nulls.
  rewrite !filter_In, andb_true_iff. tauto.
Qed.

Lemma in_join_left {L R P} (lkey : L → option Z) (rkey : R → option Z)
    (payload : R → P) (absent : P) (right : list R) (df : list L) l p :
  In (l, p) (Pl.join_left lkey rkey payload absent right df) ↔
  In l df ∧
  (((∀ r, In r right → Pl.key_matches (lkey l) (rkey r) = false) ∧ p = absent)
   ∨ (∃ r, In r right ∧ Pl.key_matches (lkey l) (rkey r) = true
           ∧ p = payload r)).
Proof.
  unfold Pl.join_left. rewrite in_flat_map. split.
  - intros (l' & Hl' & Hin).
    destruct (List.filter _ right) as [|m found] eqn:E.
    + destruct Hin as [[= <- <-]|[]]. split; [done|]. left. split; [|done].
      intros r Hr. destruct (Pl.key_matches (lkey l') (rkey r)) eqn:K; [|done].
      assert (In r (List.filter (λ r, Pl.key_matches (lkey l') (rkey r)) right))
        as Hf by (apply filter_In; done).
      rewrite E in Hf. destruct Hf.
    + rewrite <- E in Hin. apply in_map_iff in Hin.
      destruct Hin as (r & [= <- <-] & Hr). apply filter_In in Hr.
      split; [done|]. right. exists r. tauto.
  - intros [Hl [[Hno ->]|(r & Hr & Hk & ->)]]; exists l; split; try done.
    + destruct (List.filter _ right) as [|m found] eqn:E; [by left|].
      assert (In m (List.filter (λ r, Pl.key_matches (lkey l) (rkey r)) right))
        as Hf by (rewrite E; by left).
      apply filter_In in Hf. destruct Hf as [Hm Hk]. rewrite Hno in Hk; done.
    + assert (In r (List.filter (λ r, Pl.key_matches (lkey l) (rkey r)) right))
        as Hf by (apply filter_In; done).
      destruct (List.filter _ right) as [|m found] eqn:E; [destruct Hf|].
      apply in_map_iff. exists r. done.
Qed.

(** The rows of the unified table: one for every admitted input row and
    every choice of its pickup and dropoff zone columns. *)
Lemma in_load_data tu trips zones t :
  In t (load_data tu trips zones) ↔
  ∃ r pu do, In r trips ∧ admission_invariants r
             ∧ zone_choice zones (PULocationID r) pu
             ∧ zone_choice zones (DOLocationID r) do
             ∧ t = unified_row tu r pu do.
Proof.
  unfold load_data. rewrite in_map_iff. split.
  - intros ([[[[[r f] s] pu] do] lbl] & <- & Hin).
    apply in_map_iff in Hin. destruct Hin as (y & Hy & Hin).
    injection Hy as -> <-.
    apply in_join_left in Hin. destruct Hin as [Hin Hdo].
    apply in_join_left in Hin. destruct Hin as [Hin Hpu].
    apply in_map_iff in Hin. destruct Hin as (rf & Hrf & Hin).
    injection Hrf as -> <-.
    apply in_map_iff in Hin. destruct Hin as (r' & Hr' & Hin).
    injection Hr' as -> <-.
    apply in_cleaning in Hin. destruct Hin as [Hin Hadm].
    exists r, pu, do. done.
  - intros (r & pu & do & Hin & Hadm & Hpu & Hdo & ->).
    exists (r, features tu r, speed (r, features tu r), pu, do,
            payment_label_expr (payment_type r)).
    split; [done|]. apply in_map_iff.
    exists (r, features tu r, speed (r, features tu r), pu, do).
    split; [done|]. apply in_join_left. split; [|done].
    apply in_join_left. split; [|done].
    apply in_map_iff. exists (r, features tu r). split; [done|].
    apply in_map_iff. exists r. split; [done|].
    apply in_cleaning. done.
Qed.

End Membership.

(** ** Admission invariants *)

(** C1.  Every row of the table returned by [load_data] satisfies the four
    admission invariants (dropoff after pickup, positive distance, fare in
    (0, 500], none of the five critical fields missing), and an input row
    that violates one of them is the raw part of no row of the result. *)
Theorem load_data_admission tu trips zones :
  (∀ t, In t (load_data tu trips zones) → admission_invariants (raw t))
  ∧ (∀ r, In r trips → ¬ admission_invariants r →
          ∀ t, In t (load_data tu trips zones) → raw t ≠ r).
Proof.
  assert (∀ t, In t (load_data tu trips zones) → admission_invariants (raw t))
    as Hinv.
  { intros t Ht. apply in_load_data in Ht.
    destruct Ht as (r & pu & do & _ & Hadm & _ & _ & ->). exact Hadm. }
  split; [exact Hinv|].
  intros r _ Hbad t Ht <-. apply Hbad, Hinv, Ht.
Qed.

Lemma load_data_admission_witness :
  admission_invariants row_C
  ∧ (∀ t, In t (load_data us sample_trips sample_zones) → raw t ≠ row_A).
Proof.
  destruct (load_data_admission us sample_trips sample_zones) as [Hin Hout].
  split.
  - apply (Hin (unified_row us row_C sample_midtown no_zone)).
    vm_compute. left. reflexivity.
  - apply Hout.
    + left. reflexivity.
    + intros (_ & _ & (f & Hf & Hpos & _) & _).
      injection Hf as <-. revert Hpos. vm_compute. discriminate.
Defined.

(** ** Payment labels *)

Lemma payment_get_enumeration c :
  payment_get c = label_of_code c.
Proof.
  unfold payment_get, label_of_code, PAYMENT_MAP.
  destruct (decide (c = 1)) as [->|H1]; [done|].
  destruct (decide (c = 2)) as [->|H2]; [done|].
  destruct (decide (c = 3)) as [->|H3]; [done|].
  destruct (decide (c = 4)) as [->|H4]; [done|].
  destruct (decide (c = 5)) as [->|H5]; [done|].
  rewrite !lookup_insert_ne, lookup_empty by done. simpl.
  destruct c as [|[[[]|[]|]|[[]|[]|]|]|]; done.
Qed.

(** C2, amended.  For every row of the unified table with a payment code
    [c], [payment_label] is the label of [c] in the fixed enumeration, and
    ["Unknown"] for a code outside of it; for a row whose code is missing
    [payment_label] is missing too. *)
Theorem payment_label_of_code tu trips zones t :
  In t (load_data tu trips zones) →
  (∀ c, payment_type (raw t) = Some c →
        payment_label t = Some (label_of_code c))
  ∧ (payment_type (raw t) = None → payment_label t = None).
Proof.
  intros Ht. apply in_load_data in Ht.
  destruct Ht as (r & pu & do & _ & _ & _ & _ & ->). simpl.
  unfold payment_label_expr. split.
  - intros c ->. simpl. by rewrite payment_get_enumeration.
  - intros ->. done.
Qed.

Lemma payment_label_of_code_witness :
  (∀ c, payment_type row_C = Some c →
        payment_label (unified_row us row_C sample_midtown no_zone)
        = Some (label_of_code c))
  ∧ (payment_type row_C = None →
     payment_label (unified_row us row_C sample_midtown no_zone) = None).
Proof.
  apply (payment_label_of_code us sample_trips sample_zones
           (unified_row us row_C sample_midtown no_zone)).
  vm_compute. left. reflexivity.
Defined.

(** The labels the enumeration gives to the codes the specification names. *)
Lemma label_of_code_examples :
  payment_label_expr (Some 1) = Some "Credit Card"
  ∧ payment_label_expr (Some 2) = Some "Cash"
  ∧ payment_label_expr (Some 3) = Some "No Charge"
  ∧ payment_label_expr (Some 4) = Some "Dispute"
  ∧ payment_label_expr (Some 5) = Some "Unknown"
  ∧ payment_label_expr (Some 7) = Some "Unknown".
Proof. repeat split; reflexivity. Qed.

(** C2 as stated fails: row D of the sample is admitted, has no payment
    code, and its label is missing, not ["Unknown"]. *)
Lemma payment_label_missing_code :
  ¬ (∀ t, In t (load_data us sample_trips sample_zones) →
          payment_type (raw t) = None → payment_label t = Some "Unknown").
Proof.
  intros H.
  specialize (H (unified_row us row_D sample_jfk sample_jfk)).
  assert (payment_label (unified_row us row_D sample_jfk sample_jfk)
          = Some "Unknown") as Hl.
  { apply H; [|reflexivity]. vm_compute. right. left. reflexivity. }
  discriminate Hl.
Qed.

(** ** Zone enrichment *)

Lemma key_matches_false k z :
  LocationID z ≠ k → Pl.key_matches k (LocationID z) = false.
Proof.
  intros Hne. unfold Pl.key_matches.
  destruct k as [a|]; [|done]. destruct (LocationID z) as [b|]; [|done].
  apply Z.eqb_neq. congruence.
Qed.

Lemma zone_choice_exists zones k : ∃ zc, zone_choice zones k zc.
Proof.
  destruct (List.filter (λ z, Pl.key_matches k (LocationID z)) zones)
    as [|z found] eqn:E.
  - exists no_zone. left. split; [|done]. intros z Hz.
    destruct (Pl.key_matches k (LocationID z)) eqn:K; [|done].
    assert (In z (List.filter (λ z, Pl.key_matches k (LocationID z)) zones))
      as Hf by (apply filter_In; done).
    rewrite E in Hf. destruct Hf.
  - assert (In z (List.filter (λ z, Pl.key_matches k (LocationID z)) zones))
      as Hf by (rewrite E; by left).
    apply filter_In in Hf. exists (zone_cols z). right. exists z. tauto.
Qed.

Lemma zone_choice_no_match zones k zc :
  (∀ z, In z zones → LocationID z ≠ k) → zone_choice zones k zc → zc = no_zone.
Proof.
  intros Hno [[_ ->]|(z & Hz & Hk & _)]; [done|].
  rewrite key_matches_false in Hk by auto. discriminate.
Qed.

(** C5.  Both zone joins are left joins: an admitted input row is the raw
    part of some row of the unified table whatever the zone table holds, and
    when no zone row has its pickup (dropoff) location id, every unified row
    built from it has [pickup_zone] and [pickup_borough] ([dropoff_zone] and
    [dropoff_borough]) absent. *)
Theorem zone_join_is_left_join tu trips zones r :
  In r trips → admission_invariants r →
  (∃ t, In t (load_data tu trips zones) ∧ raw t = r)
  ∧ ((∀ z, In z zones → LocationID z ≠ PULocationID r) →
     ∀ t, In t (load_data tu trips zones) → raw t = r →
          pickup_zone t = None ∧ pickup_borough t = None)
  ∧ ((∀ z, In z zones → LocationID z ≠ DOLocationID r) →
     ∀ t, In t (load_data tu trips zones) → raw t = r →
          dropoff_zone t = None ∧ dropoff_borough t = None).
Proof.
  intros Hin Hadm. split; [|split].
  - destruct (zone_choice_exists zones (PULocationID r)) as [pu Hpu].
    destruct (zone_choice_exists zones (DOLocationID r)) as [do Hdo].
    exists (unified_row tu r pu do). split; [|done].
    apply in_load_data. exists r, pu, do. done.
  - intros Hno t Ht Hraw. apply in_load_data in Ht.
    destruct Ht as (r' & pu & do & _ & _ & Hpu & _ & ->).
    simpl in Hraw. subst r'.
    apply zone_choice_no_match in Hpu; [|done]. by subst pu.
  - intros Hno t Ht Hraw. apply in_load_data in Ht.
    destruct Ht as (r' & pu & do & _ & _ & _ & Hdo & ->).
    simpl in Hraw. subst r'.
    apply zone_choice_no_match in Hdo; [|done]. by subst do.
Qed.

Lemma sample_row_C_admitted : admission_invariants row_C.
Proof.
  apply kept_iff. vm_compute. reflexivity.
Defined.

Lemma zone_join_is_left_join_witness :
  (∃ t, In t (load_data us sample_trips sample_zones) ∧ raw t = row_C)
  ∧ (∀ t, In t (load_data us sample_trips sample_zones) → raw t = row_C →
          dropoff_zone t = None ∧ dropoff_borough t = None).
Proof.
  destruct (zone_join_is_left_join us sample_trips sample_zones row_C)
    as (Hkept & _ & Hdo).
  - right. right. left. reflexivity.
  - exact sample_row_C_admitted.
  - split; [exact Hkept|]. apply Hdo.
    intros z [<-|[<-|[<-|[]]]]; vm_compute; discriminate.
Defined.

(** ** Duration and speed *)

Lemma speed_guard r f dur :
  f_trip_duration_minutes f = Some dur →
  ((dur == 0)%Q → speed (r, f) = None)
  ∧ ((0 < dur)%Q →
     speed (r, f) = Pl.lift2 Qdiv (trip_distance r) (Some (dur / 60)%Q)).
Proof.
  intros Hd. unfold speed, Pl.when_then_otherwise_null. rewrite Hd. simpl.
  split; intros H.
  - destruct (Qgtb dur 0) eqn:G; [|done]. apply Qgtb_true in G.
    rewrite H in G. by apply Qlt_irrefl in G.
  - apply Qgtb_true in H. by rewrite H.
Qed.

(** C6.  In every row of the unified table, a duration of zero minutes
    leaves [trip_speed_mph] absent, and a positive duration gives
    [trip_distance / (trip_duration_minutes / 60)]. *)
Theorem speed_guarded_by_duration tu trips zones t dur :
  In t (load_data tu trips zones) →
  trip_duration_minutes t = Some dur →
  ((dur == 0)%Q → trip_speed_mph t = None)
  ∧ ((0 < dur)%Q →
     ∃ dist, trip_distance (raw t) = Some dist
             ∧ trip_speed_mph t = Some (dist / (dur / 60))%Q).
Proof.
  intros Ht Hdur. apply in_load_data in Ht.
  destruct Ht as (r & pu & do & _ & Hadm & _ & _ & ->).
  change (trip_speed_mph (unified_row tu r pu do))
    with (speed (r, features tu r)).
  change (raw (unified_row tu r pu do)) with r.
  destruct (speed_guard r (features tu r) dur Hdur) as [Hzero Hpos].
  split; [exact Hzero|]. intros H.
  destruct Hadm as (_ & (x & Hx & _) & _).
  exists x. split; [done|]. rewrite (Hpos H), Hx. done.
Qed.

Lemma speed_guarded_by_duration_witness :
  trip_speed_mph (unified_row us row_D sample_jfk sample_jfk) = None
  ∧ ∃ dist, trip_distance row_C = Some dist
            ∧ trip_speed_mph (unified_row us row_C sample_midtown no_zone)
              = Some (dist / ((900 # 60) / 60))%Q.
Proof.
  split.
  - apply (speed_guarded_by_duration us sample_trips sample_zones
             (unified_row us row_D sample_jfk sample_jfk) (0 # 60)).
    + vm_compute. right. left. reflexivity.
    + reflexivity.
    + reflexivity.
  - apply (speed_guarded_by_duration us sample_trips sample_zones
             (unified_row us row_C sample_midtown no_zone) (900 # 60)).
    + vm_compute. left. reflexivity.
    + reflexivity.
    + reflexivity.
Defined.

Lemma minutes_pos n : (0 < inject_Z n / 60)%Q ↔ 0 < n.
Proof.
  unfold Qlt, Qdiv, Qmult, Qinv, inject_Z. simpl. lia.
Qed.

Lemma minutes_nonneg n : 0 <= n → (0 <= inject_Z n / 60)%Q.
Proof.
  unfold Qle, Qdiv, Qmult, Qinv, inject_Z. simpl. lia.
Qed.

Lemma total_seconds_pos tu d :
  (0 < total_seconds tu d ↔ ticks_per_second tu <= d)
  ∧ (0 <= d → 0 <= total_seconds tu d).
Proof.
  unfold total_seconds.
  assert (0 < ticks_per_second tu) as Hpos by (destruct tu; simpl; lia).
  destruct (Z_lt_le_dec d 0) as [Hneg|Hnn].
  - split; [|lia]. split; [|lia].
    pose proof (Z.quot_opp_l d (ticks_per_second tu) ltac:(lia)) as Ho.
    assert (0 <= Z.quot (- d) (ticks_per_second tu))
      by (apply Z.quot_pos; lia).
    lia.
  - rewrite Z.quot_div_nonneg by lia. split.
    + split; intros H.
      * destruct (Z_lt_le_dec d (ticks_per_second tu)) as [Hlt|]; [|done].
        rewrite Z.div_small in H by lia. lia.
      * apply Z.div_str_pos. lia.
    + intros _. apply Z.div_pos; lia.
Qed.

Lemma wrap_int64_small z : 0 <= z < 2 ^ 63 → wrap_int64 z = z.
Proof.
  intros H. unfold wrap_int64. rewrite Z.mod_small by lia. lia.
Qed.

(** C10 as stated fails: row D of the sample is admitted (it is dropped off
    half a second after it is picked up), its duration in whole seconds is
    zero, and its speed is absent. *)
Lemma sub_second_trip_has_no_speed :
  ¬ (∀ t, In t (load_data us sample_trips sample_zones) →
          (∃ dur, trip_duration_minutes t = Some dur ∧ (0 < dur)%Q)
          ∧ trip_speed_mph t ≠ None).
Proof.
  intros H.
  destruct (H (unified_row us row_D sample_jfk sample_jfk)) as [_ Hs].
  - vm_compute. right. left. reflexivity.
  - apply Hs. reflexivity.
Qed.

(** C10, amended.  Admission requires a dropoff after the pickup, and
    the duration counts the whole seconds of their 64-bit difference: in
    every row of the unified table the duration is positive, and
    [trip_speed_mph] is present, exactly when that difference is at least
    one whole second.  When the dropoff is less than 2^63 ticks after the
    pickup the difference does not wrap and the duration is not negative. *)
Theorem speed_present_from_one_second tu trips zones t :
  In t (load_data tu trips zones) →
  ∃ p d dur,
    tpep_pickup_datetime (raw t) = Some p
    ∧ tpep_dropoff_datetime (raw t) = Some d
    ∧ p < d
    ∧ trip_duration_minutes t = Some dur
    ∧ ((0 < dur)%Q ↔ ticks_per_second tu <= sub_int64 d p)
    ∧ (is_Some (trip_speed_mph t) ↔ ticks_per_second tu <= sub_int64 d p)
    ∧ (d - p < 2 ^ 63 → sub_int64 d p = d - p ∧ (0 <= dur)%Q).
Proof.
  intros Ht. apply in_load_data in Ht.
  destruct Ht as (r & pu & do & _ & Hadm & _ & _ & ->).
  destruct Hadm as ((p & d & Hp & Hd & Hpd) & (x & Hx & _) & _).
  destruct (total_seconds_pos tu (sub_int64 d p)) as [Hiff Hnn].
  exists p, d, (inject_Z (total_seconds tu (sub_int64 d p)) / 60)%Q.
  change (raw (unified_row tu r pu do)) with r.
  change (trip_speed_mph (unified_row tu r pu do))
    with (speed (r, features tu r)).
  change (trip_duration_minutes (unified_row tu r pu do))
    with (f_trip_duration_minutes (features tu r)).
  assert (f_trip_duration_minutes (features tu r)
          = Some (inject_Z (total_seconds tu (sub_int64 d p)) / 60)%Q) as Hdur.
  { unfold features. simpl. rewrite Hp, Hd. done. }
  repeat split; try done.
  - intros H. apply Hiff. by apply minutes_pos.
  - intros H. apply minutes_pos. by apply Hiff.
  - intros [s Hs]. apply Hiff, minutes_pos.
    unfold speed, Pl.when_then_otherwise_null in Hs. rewrite Hdur in Hs.
    simpl in Hs.
    destruct (Qgtb _ 0) eqn:G; [|discriminate]. by apply Qgtb_true in G.
  - intros H. apply Hiff, minutes_pos in H.
    destruct (speed_guard r (features tu r) _ Hdur) as [_ Hpos].
    rewrite (Hpos H), Hx. simpl. eauto.
  - unfold sub_int64. apply wrap_int64_small. lia.
  - apply minutes_nonneg, Hnn. unfold sub_int64.
    rewrite wrap_int64_small; lia.
Qed.

Lemma speed_present_from_one_second_witness :
  ∃ p d dur,
    tpep_pickup_datetime row_C = Some p
    ∧ tpep_dropoff_datetime row_C = Some d
    ∧ p < d
    ∧ trip_duration_minutes (unified_row us row_C sample_midtown no_zone)
      = Some dur
    ∧ ((0 < dur)%Q ↔ ticks_per_second us <= sub_int64 d p)
    ∧ (is_Some (trip_speed_mph (unified_row us row_C sample_midtown no_zone))
       ↔ ticks_per_second us <= sub_int64 d p)
    ∧ (d - p < 2 ^ 63 → sub_int64 d p = d - p ∧ (0 <= dur)%Q).
Proof.
  apply (speed_present_from_one_second us sample_trips sample_zones
           (unified_row us row_C sample_midtown no_zone)).
  vm_compute. left. reflexivity.
Defined.

(** ** The unified table over a zone table with unique keys *)

Lemma key_matches_true k z :
  Pl.key_matches k (LocationID z) = true → LocationID z = k ∧ is_Some k.
Proof.
  unfold Pl.key_matches. destruct k as [a|]; [|done].
  destruct (LocationID z) as [b|]; [|done].
  intros H. apply Z.eqb_eq in H. subst. eauto.
Qed.

Lemma in_dropna_LocationID (zones : list ZoneRow) z a :
  In z zones → LocationID z = Some a →
  a ∈ dropna (List.map LocationID zones).
Proof.
  intros Hz Ha. unfold dropna. apply list_elem_of_omap.
  exists (Some a). split; [|done]. apply list_elem_of_In.
  rewrite <- Ha. by apply in_map.
Qed.

Lemma unique_zone_ids_filter zones k :
  unique_zone_ids zones →
  (length (List.filter (λ z, Pl.key_matches k (LocationID z)) zones) ≤ 1)%nat.
Proof.
  unfold unique_zone_ids. induction zones as [|z zones IH]; simpl; [lia|].
  intros Hnd.
  assert (NoDup (dropna (List.map LocationID zones))) as Hnd'.
  { unfold dropna in *. simpl in Hnd.
    destruct (LocationID z); simpl in Hnd; [|done]. by inversion Hnd. }
  specialize (IH Hnd').
  destruct (Pl.key_matches k (LocationID z)) eqn:K; [|done].
  apply key_matches_true in K. destruct K as [Hz [a ->]].
  destruct (List.filter _ zones) as [|z' found] eqn:E; [simpl; lia|].
  exfalso.
  assert (In z' (List.filter (λ z, Pl.key_matches (Some a) (LocationID z)) zones))
    as Hf by (rewrite E; by left).
  apply filter_In in Hf. destruct Hf as [Hz' K'].
  apply key_matches_true in K'. destruct K' as [Hz'a _].
  unfold dropna in Hnd. simpl in Hnd. rewrite Hz in Hnd. simpl in Hnd.
  inversion Hnd as [|? ? Hnotin _]. apply Hnotin.
  by eapply in_dropna_LocationID.
Qed.

Lemma join_left_unique {L} (lkey : L → option Z) zones (df : list L) :
  unique_zone_ids zones →
  Pl.join_left lkey LocationID zone_cols no_zone zones df
  = List.map (λ l, (l, zone_lookup zones (lkey l))) df.
Proof.
  intros Hu. unfold Pl.join_left.
  match goal with |- flat_map ?g _ = _ => set (f := g) end.
  induction df as [|l df IH]; [done|].
  change (f l ++ flat_map f df
          = (l, zone_lookup zones (lkey l))
            :: List.map (λ l, (l, zone_lookup zones (lkey l))) df).
  rewrite IH. unfold f, zone_lookup.
  pose proof (unique_zone_ids_filter zones (lkey l) Hu) as Hlen.
  destruct (List.filter _ zones) as [|z [|z' found]]; simpl in *; try done.
  lia.
Qed.

Lemma load_data_unique tu trips zones :
  unique_zone_ids zones →
  load_data tu trips zones
  = List.map (λ r, unified_row tu r (zone_lookup zones (PULocationID r))
                                    (zone_lookup zones (DOLocationID r)))
             (cleaning trips).
Proof.
  intros Hu. unfold load_data. rewrite !join_left_unique by done.
  rewrite !map_map. done.
Qed.

Lemma not_kept r :
  ¬ admission_invariants r →
  critical_not_null r && Pl.holds (valid_expr r) = false.
Proof.
  intros H. destruct (critical_not_null r && Pl.holds (valid_expr r)) eqn:E;
    [|done].
  by apply kept_iff in E.
Qed.

(** C3.  Over a zone table with unique location ids, the pipeline run on the
    three rows A (fare of zero), B (dropoff not after pickup) and C (valid,
    picked up 2024-01-05T04:00:00, dropped off 2024-01-05T04:15:00 after 2.5
    miles) returns exactly one row, that of C, with a duration of 15
    minutes, a speed of 10 mph, pickup hour 4 and pickup day "Friday". *)
Theorem end_to_end_scenario tu zones A B C fA pB dB xC :
  unique_zone_ids zones →
  fare_amount A = Some fA → (fA == 0)%Q →
  tpep_pickup_datetime B = Some pB → tpep_dropoff_datetime B = Some dB →
  dB <= pB →
  admission_invariants C →
  tpep_pickup_datetime C = Some (datetime tu 2024 1 5 4 0 0) →
  tpep_dropoff_datetime C = Some (datetime tu 2024 1 5 4 15 0) →
  trip_distance C = Some xC → (xC == 2.5)%Q →
  ∃ t dur s,
    load_data tu [A; B; C] zones = [t]
    ∧ raw t = C
    ∧ trip_duration_minutes t = Some dur ∧ (dur == 15)%Q
    ∧ trip_speed_mph t = Some s ∧ (s == 10)%Q
    ∧ pickup_hour t = Some 4
    ∧ pickup_day_of_week t = Some "Friday".
Proof.
  intros Hu HfA HfA0 HpB HdB HB HC HpC HdC HxC HxC25.
  rewrite load_data_unique by done. rewrite !cleaning_cons.
  rewrite (not_kept A), (not_kept B).
  2:{ intros ((p & d & Hp & Hd & Hpd) & _). rewrite HpB in Hp. rewrite HdB in Hd.
      injection Hp as <-. injection Hd as <-. lia. }
  2:{ intros (_ & _ & (f & Hf & Hpos & _) & _). rewrite HfA in Hf.
      injection Hf as <-. rewrite HfA0 in Hpos. by apply Qlt_irrefl in Hpos. }
  apply kept_iff in HC. rewrite HC. simpl.
  eexists _, (inject_Z 900 / 60)%Q, (xC / ((inject_Z 900 / 60) / 60))%Q.
  split; [reflexivity|].
  unfold unified_row, to_pandas, speed, features; simpl.
  rewrite HpC, HdC, HxC. simpl.
  assert (total_seconds tu
            (sub_int64 (datetime tu 2024 1 5 4 15 0) (datetime tu 2024 1 5 4 0 0))
          = 900) as -> by (destruct tu; reflexivity).
  assert (hour tu (datetime tu 2024 1 5 4 0 0) = 4) as ->
    by (destruct tu; reflexivity).
  assert (strftime_A tu (datetime tu 2024 1 5 4 0 0) = "Friday") as ->
    by (destruct tu; reflexivity).
  repeat split; try reflexivity.
  rewrite HxC25. reflexivity.
Qed.

Lemma sample_zones_unique : unique_zone_ids sample_zones.
Proof.
  unfold unique_zone_ids. vm_compute.
  repeat (constructor; [rewrite ?list_elem_of_In; simpl; intuition discriminate|]).
  constructor.
Defined.

Lemma end_to_end_scenario_witness :
  ∃ t dur s,
    load_data us [row_A; row_B; row_C] sample_zones = [t]
    ∧ raw t = row_C
    ∧ trip_duration_minutes t = Some dur ∧ (dur == 15)%Q
    ∧ trip_speed_mph t = Some s ∧ (s == 10)%Q
    ∧ pickup_hour t = Some 4
    ∧ pickup_day_of_week t = Some "Friday".
Proof.
  apply (end_to_end_scenario us sample_zones row_A row_B row_C 0
           (datetime us 2024 1 4 18 30 0) (datetime us 2024 1 4 18 10 0) 2.5).
  - exact sample_zones_unique.
  - reflexivity.
  - reflexivity.
  - reflexivity.
  - reflexivity.
  - vm_compute. discriminate.
  - exact sample_row_C_admitted.
  - reflexivity.
  - reflexivity.
  - reflexivity.
  - reflexivity.
Defined.

(** ** The filter step *)

Lemma in_insert_sorted x y l : In y (insert_sorted x l) ↔ y = x ∨ In y l.
Proof.
  induction l as [|z l IH]; simpl; [intuition|].
  destruct (String.leb x z); simpl; rewrite ?IH; intuition.
Qed.

Lemma in_sorted y l : In y (sorted l) ↔ In y l.
Proof.
  unfold sorted. induction l as [|x l IH]; simpl; [done|].
  rewrite in_insert_sorted, IH. intuition.
Qed.

Lemma in_unique_from seen l y :
  In y (unique_from seen l) ↔ In y l ∧ y ∉ seen.
Proof.
  revert seen. induction l as [|x l IH]; intros seen; simpl; [intuition|].
  case_bool_decide as Hx; simpl; rewrite IH.
  - split; [intuition|]. intros [[->|Hy] Hn]; [done|auto].
  - rewrite not_elem_of_cons. split.
    + intros [->|[Hy [Hne Hn]]]; auto.
    + intros [[->|Hy] Hn]; [auto|].
      destruct (decide (y = x)) as [->|Hne]; auto.
Qed.

Lemma in_all_payment_types df_full l :
  In l (all_payment_types df_full)
  ↔ ∃ t, In t df_full ∧ payment_label t = Some l.
Proof.
  unfold all_payment_types, unique, dropna.
  rewrite in_sorted, in_unique_from, <- list_elem_of_In, list_elem_of_omap.
  split.
  - intros [(o & Ho & Hl) _]. simpl in Hl. subst o.
    apply list_elem_of_In, in_map_iff in Ho. destruct Ho as (t & Ht & Hin).
    eauto.
  - intros (t & Hin & Ht). split; [|apply not_elem_of_nil].
    exists (Some l). split; [|done]. apply list_elem_of_In.
    rewrite <- Ht. by apply in_map.
Qed.

Lemma wanted_payments_all df_full :
  wanted_payments df_full (all_payment_types df_full)
  = wanted_payments df_full [].
Proof.
  unfold wanted_payments. by destruct (all_payment_types df_full).
Qed.

(** C4.  The filter step with no payment type selected returns the same
    rows as with every payment type selected, whatever the table and the
    date and hour selections; and it keeps every row with a label that is
    within the date and hour intervals. *)
Theorem empty_selection_selects_all tu df_full dr hours :
  apply_filters tu df_full (mkWidgets dr hours [])
  = apply_filters tu df_full (mkWidgets dr hours (all_payment_types df_full))
  ∧ ∀ start_date end_date t l,
      date_bounds dr = Ok (start_date, end_date) →
      In t df_full →
      payment_label t = Some l →
      within_intervals tu start_date end_date hours t →
      ∃ df, apply_filters tu df_full (mkWidgets dr hours []) = Ok df ∧ In t df.
Proof.
  split.
  - unfold apply_filters, mask. simpl.
    destruct (date_bounds dr) as [[s e]|ex]; simpl; [|done].
    by rewrite wanted_payments_all.
  - intros s e t l Hb Hin Hl (p & h & Hp & Hdate & Hh & Hhour).
    unfold apply_filters. simpl. rewrite Hb. simpl.
    eexists; split; [reflexivity|]. apply filter_In. split; [done|].
    unfold mask, pickup_date. rewrite Hp, Hh, Hl. simpl.
    rewrite !andb_true_iff. repeat split; try lia.
    apply bool_decide_eq_true_2, list_elem_of_In.
    apply in_all_payment_types. eauto.
Qed.

Lemma empty_selection_selects_all_witness :
  ∃ df, apply_filters us sample_table sample_widgets_none = Ok df
        ∧ In (unified_row us row_C sample_midtown no_zone) df.
Proof.
  destruct (empty_selection_selects_all us sample_table
              (Dates [19723; 19753]) (0, 23)) as [_ H].
  apply (H 19723 19753 (unified_row us row_C sample_midtown no_zone)
           "Credit Card").
  - reflexivity.
  - vm_compute. left. reflexivity.
  - reflexivity.
  - exists (datetime us 2024 1 5 4 0 0), 4. vm_compute.
    repeat split; discriminate.
Defined.

(** ** The render cycle *)

Lemma filter_sublist {A} (f : A → bool) (l : list A) :
  sublist (List.filter f l) l.
Proof.
  induction l as [|x l IH]; simpl; [constructor|].
  destruct (f x); by constructor.
Qed.

(** C8.  When the filters leave no row, the run puts the empty-state
    warning on the page and nothing else, so no chart, and ends at
    [st.stop()] rather than with an exception. *)
Theorem empty_result_stops tu df_full w :
  apply_filters tu df_full w = Ok [] →
  fst (script tu df_full w) = Stopped
  ∧ v_ui (snd (script tu df_full w)) = [st_warning NO_TRIPS]
  ∧ List.filter is_chart (v_ui (snd (script tu df_full w))) = [].
Proof.
  intros H. unfold script. rewrite H. simpl. done.
Qed.

Lemma empty_result_stops_witness :
  fst (script us sample_table sample_widgets_cash) = Stopped
  ∧ v_ui (snd (script us sample_table sample_widgets_cash))
    = [st_warning NO_TRIPS]
  ∧ List.filter is_chart (v_ui (snd (script us sample_table sample_widgets_cash)))
    = [].
Proof.
  apply (empty_result_stops us sample_table sample_widgets_cash).
  vm_compute. reflexivity.
Defined.

(** A run that keeps some row completes and shows the five charts, unless
    the heatmap has no data. *)
Lemma nonempty_result_renders tu df_full w t df :
  apply_filters tu df_full w = Ok (t :: df) →
  fst (script tu df_full w) = Completed
  ∧ List.filter is_chart (v_ui (snd (script tu df_full w)))
    = [st_plotly_chart "fig1"; st_plotly_chart "fig2"; st_plotly_chart "fig3";
       st_plotly_chart "fig4"]
      ++ (if heatmap_data_empty (t :: df) then [] else [st_plotly_chart "fig5"]).
Proof.
  intros H. unfold script. rewrite H. split; [done|].
  unfold render. destruct (heatmap_data_empty (t :: df)); reflexivity.
Qed.

Lemma render_frame df e :
  v_df_full (render df e) = v_df_full e ∧ v_df (render df e) = v_df e.
Proof.
  unfold render. destruct (heatmap_data_empty df); split; reflexivity.
Qed.






Lemma concat_nonempty_pieces (ps : list (list Byte.byte)) :
  concat (List.filter (λ c, negb (is_empty_piece c)) ps) = concat ps.
Proof.
  induction ps as [|c ps IH]; [done|]. simpl.
  destruct c; simpl; by rewrite IH.
Qed.

Lemma write_all_files path cs w :
  files (write_all path cs w) !! path
  = (λ old, old ++ concat cs) <$> files w !! path.
Proof.
  unfold write_all. revert w. induction cs as [|c cs IH]; intros w; simpl.
  - destruct (files w !! path); simpl; [|done]. by rewrite app_nil_r.
  - rewrite IH. simpl. rewrite lookup_alter_eq.
    destruct (files w !! path); simpl; [|done]. by rewrite app_assoc.
Qed.

Lemma write_all_frame path cs w :
  dirs (write_all path cs w) = dirs w
  ∧ requests_sent (write_all path cs w) = requests_sent w
  ∧ ∀ other, other ≠ path →
             files (write_all path cs w) !! other = files w !! other.
Proof.
  unfold write_all. revert w. induction cs as [|c cs IH]; intros w; simpl.
  - done.
  - destruct (IH (write path c w)) as (-> & -> & Hf). repeat split; try done.
    intros other Hne. rewrite Hf by done. simpl.
    by rewrite lookup_alter_ne.
Qed.


Lemma written_file path cs w :
  files (write_all path cs (create_file path w)) !! path = Some (concat cs).
Proof. rewrite write_all_files. simpl. by rewrite lookup_insert_eq. Qed.

(** *** Lengths of [dirname] and of the directories above *)

Lemma upto_last_slash_length p h :
  upto_last_slash p = Some h →
  (String.length h ≤ String.length p)%nat
  ∧ (ends_with_slash p = false → (String.length h < String.length p)%nat).
Proof.
  revert h. induction p as [|c p IH]; intros h; simpl; [done|].
  destruct (upto_last_slash p) as [h'|] eqn:E.
  - intros [= <-]. destruct (IH h' eq_refl) as [Hle Hlt]. simpl.
    split; [lia|]. destruct p as [|c' p']; [done|].
    intros He. specialize (Hlt He). lia.
  - destruct (Ascii.eqb c slash) eqn:Ec; [|done]. intros [= <-]. simpl.
    split; [lia|]. destruct p as [|c' p']; [congruence|]. simpl. lia.
Qed.

Lemma rstrip_slashes_length s :
  (String.length (rstrip_slashes s) ≤ String.length s)%nat.
Proof.
  induction s as [|c s IH]; [done|]. cbn [rstrip_slashes].
  destruct (all_slashes (String c s)); simpl; lia.
Qed.

Lemma dirname_length p :
  (String.length (dirname p) ≤ String.length p)%nat
  ∧ (ends_with_slash p = false → p ≠ EmptyString →
     (String.length (dirname p) < String.length p)%nat).
Proof.
  unfold dirname. destruct (upto_last_slash p) as [h|] eqn:E; simpl.
  - destruct (upto_last_slash_length p h E) as [Hle Hlt].
    pose proof (rstrip_slashes_length h).
    destruct (all_slashes h); split; try lia; intros He _;
      specialize (Hlt He); lia.
  - split; [lia|]. intros _ Hne. destruct p; [done|simpl; lia].
Qed.

Lemma parents_upto_length n d a :
  In a (parents_upto n d) → (String.length a ≤ String.length d)%nat.
Proof.
  revert d. induction n as [|n IH]; intros d; simpl; [done|].
  destruct (String.eqb (dirname d) EmptyString || String.eqb (dirname d) d);
    [done|].
  pose proof (proj1 (dirname_length d)).
  intros [<-|Ha]; [done|]. apply IH in Ha. lia.
Qed.

(** A path that does not end with a slash is none of the directories made
    for it. *)
Lemma path_not_made path :
  ends_with_slash path = false → path ≠ EmptyString →
  ¬ In path (dirname path :: parents (dirname path)).
Proof.
  intros He Hne Hin.
  pose proof (proj2 (dirname_length path) He Hne) as Hlt.
  destruct Hin as [Heq|Hin].
  - rewrite Heq in Hlt. lia.
  - apply parents_upto_length in Hin. lia.
Qed.

Lemma all_slashes_ends s :
  all_slashes s = true → s ≠ EmptyString → ends_with_slash s = true.
Proof.
  induction s as [|c s IH]; [done|]. simpl. intros H _.
  apply andb_true_iff in H. destruct H as [Hc Hs].
  destruct s as [|c' s']; [done|]. by apply IH.
Qed.

Lemma rstrip_slashes_id s : ends_with_slash s = false → rstrip_slashes s = s.
Proof.
  induction s as [|c s IH]; [done|]. intros He. cbn [rstrip_slashes].
  destruct (all_slashes (String c s)) eqn:Ha.
  - apply all_slashes_ends in Ha; [congruence|done].
  - f_equal. destruct s as [|c' s']; [done|]. by apply IH.
Qed.

Lemma strip_id s :
  ends_with_slash s = false →
  (if all_slashes s then s else rstrip_slashes s) = s.
Proof.
  intros He. destruct (all_slashes s); [done|]. by apply rstrip_slashes_id.
Qed.

Lemma path_exists_false path w :
  path_exists path w = false
  ↔ files w !! path = None
    ∧ (if all_slashes path then path else rstrip_slashes path) ∉ dirs w.
Proof.
  unfold path_exists. rewrite orb_false_iff, !bool_decide_eq_false.
  by rewrite eq_None_not_Some.
Qed.

Lemma path_exists_file path w :
  is_Some (files w !! path) → path_exists path w = true.
Proof.
  intros H. unfold path_exists. by rewrite bool_decide_eq_true_2.
Qed.

Lemma components_not_nil p : components p ≠ [].
Proof.
  destruct p as [|c p]; [done|]. simpl.
  destruct (Ascii.eqb c slash); [done|]. by destruct (components p).
Qed.

Lemma forallb_last {A} (f : A → bool) (l : list A) d :
  forallb f l = true → l ≠ [] → f (List.last l d) = true.
Proof.
  induction l as [|x l IH]; [done|]. intros H _.
  simpl in H. apply andb_true_iff in H. destruct H as [Hx Hl].
  destruct l as [|y l']; [done|]. by apply IH.
Qed.

(** A path in plain form names a file, not a directory. *)
Lemma plain_path_names_file path :
  plain_path path = true →
  path ≠ EmptyString ∧ ends_with_slash path = false
  ∧ names_directory path = false.
Proof.
  intros H. split; [by intros ->|].
  unfold plain_path in H. apply andb_true_iff in H. destruct H as [He Hc].
  apply negb_true_iff in He. split; [done|].
  unfold names_directory. rewrite He. simpl. apply negb_false_iff.
  pose proof (components_not_nil path) as Hne.
  destruct (components path) as [|c cs]; [done|].
  destruct c as [|a c'].
  - destruct cs as [|c2 cs']; [by apply (forallb_last _ [EmptyString])|].
    change (forallb plain_component (c2 :: cs') = true) in Hc.
    change (List.last (EmptyString :: c2 :: cs') EmptyString)
      with (List.last (c2 :: cs') EmptyString).
    by apply forallb_last.
  - change (forallb plain_component (String a c' :: cs) = true) in Hc.
    by apply forallb_last.
Qed.

(** *** The ways a call can go *)

Lemma dirname_made url path w : dirname path ∈ dirs (after_request url path w).
Proof.
  unfold after_request. cbn [dirs].
  rewrite elem_of_union, elem_of_list_to_set. left. apply list_elem_of_here.
Qed.

Lemma path_not_in_made url path w :
  ends_with_slash path = false → path ≠ EmptyString →
  path_exists path w = false →
  path ∉ dirs (after_request url path w).
Proof.
  intros He Hne Hm. unfold after_request. cbn [dirs].
  rewrite elem_of_union, elem_of_list_to_set, list_elem_of_In.
  intros [Hin|Hin]; [by apply (path_not_made path)|].
  apply path_exists_false in Hm. destruct Hm as [_ Hm].
  by rewrite strip_id in Hm.
Qed.

Lemma download_cases url path w w' e :
  _download_if_missing url path w = (w', e) →
  (path_exists path w = true ∧ w' = w ∧ e = None)
  ∨ (path_exists path w = false ∧ w' = w
     ∧ ((dirname path = EmptyString ∧ e = Some FileNotFoundError)
        ∨ ((∃ a, In a (parents (dirname path)) ∧ is_Some (files w !! a))
           ∧ e = Some NotADirectoryError)
        ∨ (is_Some (files w !! dirname path) ∧ e = Some FileExistsError)))
  ∨ (path_exists path w = false
     ∧ dirname path ≠ EmptyString
     ∧ (∀ a, In a (dirname path :: parents (dirname path)) →
             files w !! a = None)
     ∧ w' = after_request url path w
     ∧ ((remote w url = None ∧ e = Some ConnectionError)
        ∨ (∃ r, remote w url = Some r ∧ 400 <= status_code r < 600
                ∧ e = Some (HTTPError (status_code r)))
        ∨ (∃ r, remote w url = Some r ∧ ¬ (400 <= status_code r < 600)
                ∧ (names_directory path = true
                   ∨ path ∈ dirs (after_request url path w))
                ∧ e = Some IsADirectoryError)))
  ∨ (path_exists path w = false
     ∧ dirname path ≠ EmptyString
     ∧ (∀ a, In a (dirname path :: parents (dirname path)) →
             files w !! a = None)
     ∧ names_directory path = false
     ∧ (path ∉ dirs (after_request url path w))
     ∧ ∃ r cs broken,
         remote w url = Some r
         ∧ ¬ (400 <= status_code r < 600)
         ∧ iter_content chunk_size r = (cs, broken)
         ∧ w' = write_all path cs (create_file path (after_request url path w))
         ∧ e = if broken then Some ChunkedEncodingError else None).
Proof.
  unfold _download_if_missing.
  destruct (path_exists path w); simpl.
  { intros [= <- <-]. by left. }
  unfold makedirs.
  destruct (String.eqb_spec (dirname path) EmptyString) as [Hd|Hd].
  { intros [= <- <-]. right. left. repeat split; try done. by left. }
  destruct (existsb _ (parents (dirname path))) eqn:Hp.
  { intros [= <- <-]. right. left. repeat split; try done. right. left.
    split; [|done]. apply existsb_exists in Hp. destruct Hp as (a & Ha & Hf).
    apply bool_decide_eq_true in Hf. eauto. }
  case_bool_decide as Hf.
  { intros [= <- <-]. right. left. repeat split; try done. right. by right. }
  assert (∀ a, In a (dirname path :: parents (dirname path)) →
               files w !! a = None) as Hfree.
  { intros a [<-|Ha]; [by apply eq_None_not_Some|].
    destruct (files w !! a) eqn:Hfa; [|done].
    assert (existsb (λ a, bool_decide (is_Some (files w !! a)))
                    (parents (dirname path)) = true) as Hex; [|congruence].
    apply existsb_exists. exists a. split; [done|].
    apply bool_decide_eq_true. by rewrite Hfa. }
  unfold requests_get. simpl.
  fold (after_request url path w).
  destruct (remote w url) as [r|] eqn:Hr.
  2:{ intros [= <- <-]. right. right. left. repeat split; try done. by left. }
  unfold raise_for_status.
  destruct ((400 <=? status_code r) && (status_code r <? 600)) eqn:Hs.
  { intros [= <- <-]. right. right. left. repeat split; try done.
    right. left. apply andb_true_iff in Hs. destruct Hs as [H1 H2].
    apply Z.leb_le in H1. apply Z.ltb_lt in H2. exists r. done. }
  assert (¬ (400 <= status_code r < 600)) as Hok.
  { apply andb_false_iff in Hs. intros [H1 H2].
    destruct Hs as [Hs|Hs]; [apply Z.leb_gt in Hs|apply Z.ltb_ge in Hs]; lia. }
  unfold open_wb.
  destruct (String.eqb_spec path EmptyString) as [->|Hne]; [done|].
  destruct (names_directory path) eqn:Hn; simpl.
  { intros [= <- <-]. right. right. left. repeat split; try done.
    right. right. exists r. repeat split; try done. by left. }
  case_bool_decide as Hin.
  { intros [= <- <-]. right. right. left. repeat split; try done.
    right. right. exists r. repeat split; try done. by right. }
  destruct (String.eqb_spec (dirname path) EmptyString) as [|_]; [done|].
  change (files (after_request url path w)) with (files w).
  rewrite bool_decide_eq_false_2 by (rewrite (Hfree (dirname path)); [by intros [? ?]|by left]).
  rewrite bool_decide_eq_true_2 by apply (dirname_made url path w).
  destruct (iter_content chunk_size r) as [cs broken] eqn:Hit.
  intros [= <- <-]. right. right. right. repeat split; try done.
  exists r, cs, broken. done.
Qed.



(** ** Further properties of the pipeline *)

Lemma hour_bounds tu p : 0 <= hour tu p <= 23.
Proof.
  unfold hour.
  pose proof (Z.mod_pos_bound (epoch_seconds tu p) 86400 ltac:(lia)) as Hm.
  split.
  - apply Z.div_pos; lia.
  - assert (epoch_seconds tu p mod 86400 / 3600 < 24); [|lia].
    apply Z.div_lt_upper_bound; lia.
Qed.

Lemma strftime_A_in_DAY_ORDER tu p : In (strftime_A tu p) DAY_ORDER.
Proof.
  unfold strftime_A, weekday. apply nth_In.
  pose proof (Z.mod_pos_bound (epoch_days tu p + 3) 7 ltac:(lia)).
  change (length DAY_ORDER) with 7%nat. lia.
Qed.

(** X1.  In every row of the unified table the pickup hour is an integer
    from 0 to 23 and the pickup day is one of the seven names of
    [DAY_ORDER]. *)
Theorem pickup_hour_and_day_in_range tu trips zones t :
  In t (load_data tu trips zones) →
  (∃ h, pickup_hour t = Some h ∧ 0 <= h <= 23)
  ∧ (∃ d, pickup_day_of_week t = Some d ∧ In d DAY_ORDER).
Proof.
  intros Ht. apply in_load_data in Ht.
  destruct Ht as (r & pu & do & _ & Hadm & _ & _ & ->).
  destruct Hadm as ((p & d & Hp & _) & _).
  unfold unified_row, to_pandas, features. simpl. rewrite Hp. simpl. split.
  - exists (hour tu p). split; [done|]. apply hour_bounds.
  - exists (strftime_A tu p). split; [done|]. apply strftime_A_in_DAY_ORDER.
Qed.

Lemma pickup_hour_and_day_in_range_witness :
  (∃ h, pickup_hour (unified_row us row_C sample_midtown no_zone) = Some h
        ∧ 0 <= h <= 23)
  ∧ (∃ d, pickup_day_of_week (unified_row us row_C sample_midtown no_zone)
          = Some d ∧ In d DAY_ORDER).
Proof.
  apply (pickup_hour_and_day_in_range us sample_trips sample_zones).
  vm_compute. left. reflexivity.
Defined.

Lemma cleaning_sublist trips : sublist (cleaning trips) trips.
Proof.
  unfold cleaning, Pl.filter, drop_nulls.
  etransitivity; apply filter_sublist.
Qed.

Lemma join_left_length {L R P} (lkey : L → option Z) (rkey : R → option Z)
    (payload : R → P) (absent : P) (right : list R) (df : list L) :
  (length df ≤ length (Pl.join_left lkey rkey payload absent right df))%nat.
Proof.
  unfold Pl.join_left.
  match goal with |- (_ ≤ length (flat_map ?g _))%nat => set (f := g) end.
  induction df as [|l df IH]; [done|].
  change (flat_map f (l :: df)) with (f l ++ flat_map f df).
  rewrite length_app. simpl.
  assert (1 ≤ length (f l))%nat; [|lia].
  unfold f. destruct (List.filter _ right); simpl; lia.
Qed.

(** X2.  The joins never lose a row: the unified table has at least as
    many rows as pass the cleaning.  Over a zone table with unique location
    ids it has exactly one row for every input row that passes the cleaning,
    in the order of the input, so never more rows than the trip file. *)
Theorem unified_table_rows tu trips zones :
  (length (cleaning trips) ≤ length (load_data tu trips zones))%nat
  ∧ (unique_zone_ids zones →
     List.map raw (load_data tu trips zones) = cleaning trips
     ∧ sublist (List.map raw (load_data tu trips zones)) trips
     ∧ (length (load_data tu trips zones) ≤ length trips)%nat).
Proof.
  split.
  - unfold load_data. rewrite !length_map.
    etransitivity; [|apply join_left_length].
    etransitivity; [|apply join_left_length].
    by rewrite !length_map.
  - intros Hu.
    assert (List.map raw (load_data tu trips zones) = cleaning trips) as Hraw.
    { rewrite load_data_unique by done. rewrite map_map. simpl.
      apply map_id. }
    split; [done|]. split.
    + rewrite Hraw. apply cleaning_sublist.
    + rewrite <- (length_map raw), Hraw.
      apply sublist_length, cleaning_sublist.
Qed.

Lemma unified_table_rows_witness :
  List.map raw (load_data us sample_trips sample_zones) = cleaning sample_trips
  ∧ sublist (List.map raw (load_data us sample_trips sample_zones)) sample_trips
  ∧ (length (load_data us sample_trips sample_zones) ≤ length sample_trips)%nat.
Proof.
  apply (unified_table_rows us sample_trips sample_zones).
  exact sample_zones_unique.
Defined.

Lemma unique_zone_ids_inj zones z z' a :
  unique_zone_ids zones → In z zones → In z' zones →
  LocationID z = Some a → LocationID z' = Some a → z = z'.
Proof.
  unfold unique_zone_ids. induction zones as [|y zones IH]; [done|].
  intros Hnd Hz Hz' Ha Ha'.
  assert (NoDup (dropna (List.map LocationID zones))
          ∧ ∀ b, LocationID y = Some b →
                 b ∉ dropna (List.map LocationID zones)) as [Hnd' Hy].
  { unfold dropna in *. simpl in Hnd.
    destruct (LocationID y) as [b|]; simpl in Hnd.
    - inversion Hnd; subst. split; [done|]. by intros ? [= <-].
    - split; [done|]. done. }
  destruct Hz as [->|Hz], Hz' as [->|Hz'].
  - done.
  - exfalso. apply (Hy a Ha). by eapply in_dropna_LocationID.
  - exfalso. apply (Hy a Ha'). by eapply in_dropna_LocationID.
  - by apply IH.
Qed.

Lemma zone_choice_unique zones k z zc :
  unique_zone_ids zones → In z zones → is_Some k → LocationID z = k →
  zone_choice zones k zc → zc = zone_cols z.
Proof.
  intros Hu Hz [a ->] Ha [[Hno _]|(z' & Hz' & Hk & ->)].
  - specialize (Hno z Hz). rewrite Ha in Hno. simpl in Hno.
    by rewrite Z.eqb_refl in Hno.
  - apply key_matches_true in Hk. destruct Hk as [Ha' _].
    by rewrite (unique_zone_ids_inj zones z z' a).
Qed.

(** X3.  Over a zone table with unique location ids, a unified row whose
    pickup (dropoff) location id is that of a zone row carries that row's
    zone and borough as its pickup (dropoff) zone and borough. *)
Theorem zone_join_attaches_zone tu trips zones t z :
  unique_zone_ids zones →
  In t (load_data tu trips zones) →
  In z zones →
  (LocationID z = PULocationID (raw t) →
   pickup_zone t = Zone z ∧ pickup_borough t = Borough z)
  ∧ (LocationID z = DOLocationID (raw t) →
     dropoff_zone t = Zone z ∧ dropoff_borough t = Borough z).
Proof.
  intros Hu Ht Hz. apply in_load_data in Ht.
  destruct Ht as (r & pu & do & _ & Hadm & Hpu & Hdo & ->).
  destruct Hadm as (_ & _ & _ & _ & _ & Hpun & Hdon & _).
  change (raw (unified_row tu r pu do)) with r. split; intros Hk.
  - apply (zone_choice_unique zones _ z) in Hpu; try done.
    + by subst pu.
    + by destruct (PULocationID r).
  - apply (zone_choice_unique zones _ z) in Hdo; try done.
    + by subst do.
    + by destruct (DOLocationID r).
Qed.

Lemma zone_join_attaches_zone_witness :
  pickup_zone (unified_row us row_C sample_midtown no_zone)
  = Some "Midtown Center"
  ∧ pickup_borough (unified_row us row_C sample_midtown no_zone)
    = Some "Manhattan".
Proof.
  apply (zone_join_attaches_zone us sample_trips sample_zones
           (unified_row us row_C sample_midtown no_zone)
           (mkZoneRow (Some 161) (Some "Manhattan") (Some "Midtown Center"))).
  - exact sample_zones_unique.
  - vm_compute. left. reflexivity.
  - right. right. left. reflexivity.
  - reflexivity.
Defined.

Lemma Qdiv_pos a b : (0 < a)%Q → (0 < b)%Q → (0 < a / b)%Q.
Proof.
  intros Ha Hb. apply Qlt_shift_div_l; [done|]. by rewrite Qmult_0_l.
Qed.

(** X4.  Whenever a row of the unified table has a speed, the speed is
    not negative: the guard leaves it absent for a duration that is zero, or
    negative after a wrap-around.  (A quotient of two positive [Float64]
    values can round to zero, so no more than this is stated.) *)
Theorem speed_is_not_negative tu trips zones t s :
  In t (load_data tu trips zones) →
  trip_speed_mph t = Some s →
  (0 <= s)%Q.
Proof.
  intros Ht Hs. apply in_load_data in Ht.
  destruct Ht as (r & pu & do & _ & Hadm & _ & _ & ->).
  destruct Hadm as (_ & (x & Hx & Hxpos) & _).
  change (trip_speed_mph (unified_row tu r pu do))
    with (speed (r, features tu r)) in Hs.
  unfold speed, Pl.when_then_otherwise_null in Hs.
  destruct (f_trip_duration_minutes (features tu r)) as [dur|]; [|done].
  simpl in Hs. destruct (Qgtb dur 0) eqn:G; [|done].
  apply Qgtb_true in G. rewrite Hx in Hs. simpl in Hs. injection Hs as <-.
  apply Qlt_le_weak, Qdiv_pos; [done|]. by apply Qdiv_pos.
Qed.

Lemma speed_is_not_negative_witness : (0 <= 90000 # 9000)%Q.
Proof.
  apply (speed_is_not_negative us sample_trips sample_zones
           (unified_row us row_C sample_midtown no_zone)).
  - vm_compute. left. reflexivity.
  - reflexivity.
Defined.

(** ** Further properties of the filter step *)

Lemma pd_cmp_geb a b : pd_cmp Z.geb a b = true ↔ ∃ x, a = Some x ∧ b <= x.
Proof.
  destruct a as [x|]; simpl.
  - rewrite Z.geb_le. split; [eauto|]. by intros (? & [= <-] & ?).
  - split; [done|]. by intros (? & [=] & _).
Qed.

Lemma pd_cmp_leb a b : pd_cmp Z.leb a b = true ↔ ∃ x, a = Some x ∧ x <= b.
Proof.
  destruct a as [x|]; simpl.
  - rewrite Z.leb_le. split; [eauto|]. by intros (? & [= <-] & ?).
  - split; [done|]. by intros (? & [=] & _).
Qed.

Lemma isin_true a values :
  isin a values = true ↔ ∃ l, a = Some l ∧ In l values.
Proof.
  destruct a as [l|]; simpl.
  - rewrite bool_decide_eq_true, list_elem_of_In. split; [eauto|].
    by intros (? & [= <-] & ?).
  - split; [done|]. by intros (? & [=] & _).
Qed.

(** The mask holds for the rows within the two intervals whose label is
    one of those wanted. *)
Lemma mask_true tu df_full s e hours sel t :
  mask tu df_full s e hours sel t = true
  ↔ within_intervals tu s e hours t
    ∧ ∃ l, payment_label t = Some l ∧ In l (wanted_payments df_full sel).
Proof.
  unfold mask, within_intervals, pickup_date.
  rewrite !andb_true_iff, !pd_cmp_geb, !pd_cmp_leb, isin_true.
  destruct (tpep_pickup_datetime (raw t)) as [p|]; simpl.
  - split.
    + intros [[[[(x & [= <-] & H1) (x' & [= <-] & H2)] (h & Hh & H3)]
                (h' & Hh' & H4)] Hl].
      rewrite Hh in Hh'. injection Hh' as <-.
      split; [|done]. exists p, h. repeat split; try done; lia.
    + intros [(p' & h & [= <-] & Hd & Hh & Hr) Hl].
      repeat split; try done; eauto with lia.
  - split.
    + by intros [[[[(x & [=] & _) _] _] _] _].
    + by intros [(p & h & [=] & _) _].
Qed.


(** X6.  A trip without a payment code is in no filtered table, whatever
    the widgets hold: it is counted by no metric and shown in no chart. *)
Theorem missing_payment_code_never_shown tu trips zones w df t :
  apply_filters tu (load_data tu trips zones) w = Ok df →
  In t df →
  payment_type (raw t) ≠ None ∧ payment_label t ≠ None.
Proof.
  unfold apply_filters.
  destruct (date_bounds (date_range w)) as [[s e]|ex]; simpl; [|done].
  intros [= <-] Ht. apply filter_In in Ht. destruct Ht as [Hin Hm].
  apply mask_true in Hm. destruct Hm as [_ (l & Hl & _)].
  split; [|by rewrite Hl].
  apply in_load_data in Hin.
  destruct Hin as (r & pu & do & _ & _ & _ & _ & ->).
  change (raw (unified_row tu r pu do)) with r.
  change (payment_label (unified_row tu r pu do))
    with (payment_label_expr (payment_type r)) in Hl.
  by destruct (payment_type r).
Qed.

Lemma missing_payment_code_never_shown_witness :
  payment_type (raw (unified_row us row_C sample_midtown no_zone)) ≠ None
  ∧ payment_label (unified_row us row_C sample_midtown no_zone) ≠ None.
Proof.
  apply (missing_payment_code_never_shown us sample_trips sample_zones
           sample_widgets_none
           [unified_row us row_C sample_midtown no_zone]).
  - vm_compute. reflexivity.
  - left. reflexivity.
Defined.

(** ** The view before the user touches a widget *)

Lemma fold_left_min_le ds d :
  fold_left Z.min ds d <= d ∧ ∀ x, In x ds → fold_left Z.min ds d <= x.
Proof.
  revert d. induction ds as [|y ds IH]; intros d; simpl; [split; [lia|done]|].
  destruct (IH (Z.min d y)) as [H1 H2]. split; [lia|].
  intros x [<-|Hx]; [lia|auto].
Qed.

Lemma fold_left_max_ge ds d :
  d <= fold_left Z.max ds d ∧ ∀ x, In x ds → x <= fold_left Z.max ds d.
Proof.
  revert d. induction ds as [|y ds IH]; intros d; simpl; [split; [lia|done]|].
  destruct (IH (Z.max d y)) as [H1 H2]. split; [lia|].
  intros x [<-|Hx]; [lia|auto].
Qed.

Lemma in_dropna {A} (col : list (option A)) x :
  In x (dropna col) ↔ In (Some x) col.
Proof.
  unfold dropna. rewrite <- !list_elem_of_In, list_elem_of_omap. split.
  - intros (o & Ho & Heq). simpl in Heq. by subst o.
  - intros H. by exists (Some x).
Qed.

Lemma series_min_le col m x :
  series_min col = Some m → In (Some x) col → m <= x.
Proof.
  unfold series_min. intros Hm Hx. apply in_dropna in Hx.
  destruct (dropna col) as [|d ds]; [done|]. injection Hm as <-.
  destruct (fold_left_min_le ds d) as [H1 H2].
  destruct Hx as [<-|Hx]; auto.
Qed.

Lemma series_max_ge col m x :
  series_max col = Some m → In (Some x) col → x <= m.
Proof.
  unfold series_max. intros Hm Hx. apply in_dropna in Hx.
  destruct (dropna col) as [|d ds]; [done|]. injection Hm as <-.
  destruct (fold_left_max_ge ds d) as [H1 H2].
  destruct Hx as [<-|Hx]; auto.
Qed.

(** X8.  With the widgets at their defaults (the whole range of pickup
    dates, hours 0 to 23, every payment type), the filter step keeps every
    row of the unified table that has a payment code, and only those. *)
Theorem default_view_shows_trips_with_code tu trips zones w :
  default_widgets tu (load_data tu trips zones) = Some w →
  apply_filters tu (load_data tu trips zones) w
  = Ok (List.filter (λ t, Pl.is_not_null (payment_type (raw t)))
          (load_data tu trips zones)).
Proof.
  unfold default_widgets, min_date, max_date.
  destruct (series_min _) as [lo|] eqn:Hlo; [|done].
  destruct (series_max _) as [hi|] eqn:Hhi; [|done].
  intros [= <-]. unfold apply_filters. simpl. f_equal.
  apply filter_ext_in. intros t Ht.
  apply Bool.eq_iff_eq_true. rewrite mask_true, wanted_payments_all.
  change (wanted_payments (load_data tu trips zones) [])
    with (all_payment_types (load_data tu trips zones)).
  pose proof Ht as Hin. apply in_load_data in Ht.
  destruct Ht as (r & pu & do & _ & Hadm & _ & _ & Heq).
  destruct Hadm as ((p & d & Hp & _) & _).
  assert (payment_label t = payment_label_expr (payment_type (raw t))) as Hlbl
    by (by subst t).
  assert (tpep_pickup_datetime (raw t) = Some p) as Hpt by (by subst t).
  assert (pickup_hour t = Some (hour tu p)) as Hh.
  { subst t. unfold unified_row, to_pandas, features. simpl. by rewrite Hp. }
  split.
  - intros [_ (l & Hl & _)]. rewrite Hlbl in Hl.
    by destruct (payment_type (raw t)).
  - intros Hc. split.
    + exists p, (hour tu p).
      assert (In (Some (epoch_days tu p))
                (List.map (pickup_date tu) (load_data tu trips zones))) as Hd.
      { apply in_map_iff. exists t. split; [|done].
        unfold pickup_date. by rewrite Hpt. }
      pose proof (series_min_le _ _ _ Hlo Hd).
      pose proof (series_max_ge _ _ _ Hhi Hd).
      pose proof (hour_bounds tu p). simpl. repeat split; try done; lia.
    + destruct (payment_type (raw t)) as [c|] eqn:Hc'; [|done].
      exists (payment_get c). split; [done|].
      apply in_all_payment_types. exists t. done.
Qed.

Lemma default_view_shows_trips_with_code_witness :
  apply_filters us sample_table
    (mkWidgets (Dates [19727; 19728]) (0, 23) ["Credit Card"])
  = Ok (List.filter (λ t, Pl.is_not_null (payment_type (raw t))) sample_table).
Proof.
  apply (default_view_shows_trips_with_code us sample_trips sample_zones).
  vm_compute. reflexivity.
Defined.

(** ** Further properties of the render cycle *)

(** What the rows of a filtered unified table are known to hold. *)
Lemma filtered_row tu trips zones w df t :
  apply_filters tu (load_data tu trips zones) w = Ok df →
  In t df →
  In t (load_data tu trips zones)
  ∧ admission_invariants (raw t)
  ∧ (∃ h, pickup_hour t = Some h ∧ 0 <= h <= 23)
  ∧ (∃ d, pickup_day_of_week t = Some d ∧ In d DAY_ORDER)
  ∧ (∃ p d dur, tpep_pickup_datetime (raw t) = Some p
                ∧ tpep_dropoff_datetime (raw t) = Some d
                ∧ trip_duration_minutes t = Some dur
                ∧ (d - p < 2 ^ 63 → (0 <= dur)%Q))
  ∧ (∃ l, payment_label t = Some l).
Proof.
  unfold apply_filters.
  destruct (date_bounds (date_range w)) as [[s e]|ex]; simpl; [|done].
  intros [= <-] Ht. apply filter_In in Ht. destruct Ht as [Hin Hm].
  apply mask_true in Hm. destruct Hm as [_ (l & Hl & _)].
  split; [done|]. pose proof Hin as Hin'. apply in_load_data in Hin'.
  destruct Hin' as (r & pu & do & _ & Hadm & _ & _ & ->).
  split; [done|].
  destruct Hadm as ((p & d & Hp & Hd & Hpd) & _).
  unfold unified_row, to_pandas, features. simpl. rewrite Hp, Hd. simpl.
  repeat split.
  - exists (hour tu p). split; [done|]. apply hour_bounds.
  - exists (strftime_A tu p). split; [done|]. apply strftime_A_in_DAY_ORDER.
  - exists p, d. eexists. repeat split. intros Hsmall.
    apply minutes_nonneg, (total_seconds_pos tu (sub_int64 d p)).
    unfold sub_int64. rewrite wrap_int64_small; lia.
  - eauto.
Qed.

Lemma heatmap_data_not_empty df t :
  In t df → pickup_day_of_week t ≠ None → pickup_hour t ≠ None →
  heatmap_data_empty df = false.
Proof.
  intros Ht Hd Hh. unfold heatmap_data_empty.
  destruct (forallb _ df) eqn:E; [|done].
  rewrite forallb_forall in E. specialize (E t Ht).
  destruct (pickup_day_of_week t), (pickup_hour t); done.
Qed.

Lemma render_ui df e :
  heatmap_data_empty df = false →
  v_ui (render df e)
  = v_ui e ++
    [st_title; st_markdown; st_subheader; st_metric "Total Trips";
     st_metric "Avg Fare"; st_metric "Total Revenue";
     st_metric "Avg Distance (mi)"; st_metric "Avg Duration (min)";
     st_divider; st_tabs;
     st_subheader; st_plotly_chart "fig1"; st_caption;
     st_subheader; st_plotly_chart "fig2"; st_caption;
     st_subheader; st_plotly_chart "fig3"; st_caption;
     st_subheader; st_plotly_chart "fig4"; st_caption;
     st_subheader; st_plotly_chart "fig5"; st_caption;
     st_divider; st_markdown].
Proof.
  intros H. unfold render. rewrite H. simpl.
  by rewrite <- !app_assoc.
Qed.

(** X9.  On a table built by [load_data], the notice that the heatmap has
    no data is never shown: a run that gets past the empty-table guard
    completes and shows all five charts, in the order of the tabs. *)
Theorem heatmap_notice_never_shown tu trips zones w :
  (∀ msg, ¬ In (st_info msg)
              (v_ui (snd (script tu (load_data tu trips zones) w))))
  ∧ (fst (script tu (load_data tu trips zones) w) = Completed →
     List.filter is_chart (v_ui (snd (script tu (load_data tu trips zones) w)))
     = [st_plotly_chart "fig1"; st_plotly_chart "fig2"; st_plotly_chart "fig3";
        st_plotly_chart "fig4"; st_plotly_chart "fig5"]).
Proof.
  unfold script.
  destruct (apply_filters tu (load_data tu trips zones) w) as [df|ex] eqn:E.
  2:{ split; [intros msg []|done]. }
  destruct df as [|t df].
  { split; [|done]. intros msg [[=]|[]]. }
  assert (heatmap_data_empty (t :: df) = false) as Hh.
  { destruct (filtered_row tu trips zones w (t :: df) t E ltac:(by left))
      as (_ & _ & (h & Hh & _) & (d & Hd & _) & _).
    apply (heatmap_data_not_empty _ t); [by left|by rewrite Hd|by rewrite Hh]. }
  cbn [fst snd]. rewrite render_ui by done. simpl. split; [|done].
  intros msg H. repeat (destruct H as [H|H]; [discriminate H|]). destruct H.
Qed.

Lemma heatmap_notice_never_shown_witness :
  List.filter is_chart (v_ui (snd (script us sample_table sample_widgets_none)))
  = [st_plotly_chart "fig1"; st_plotly_chart "fig2"; st_plotly_chart "fig3";
     st_plotly_chart "fig4"; st_plotly_chart "fig5"].
Proof.
  apply (heatmap_notice_never_shown us sample_trips sample_zones
           sample_widgets_none).
  vm_compute. reflexivity.
Defined.

Lemma render_dist_clipped df e :
  v_dist_clipped (render df e) = Some (clip_distances df).
Proof.
  unfold render. destruct (heatmap_data_empty df); reflexivity.
Qed.

(** X10.  The distances handed to the histogram are those of the filtered
    rows that are at most 30 miles, in their order; on a table built by
    [load_data] each of them is present, positive and at most 30. *)
Theorem dist_clipped_within_30 tu trips zones w c :
  v_dist_clipped (snd (script tu (load_data tu trips zones) w)) = Some c →
  (∃ df, v_df (snd (script tu (load_data tu trips zones) w)) = Some df
         ∧ c = clip_distances df
         ∧ (length c ≤ length df)%nat)
  ∧ Forall (λ o, ∃ x, o = Some x ∧ (0 < x)%Q ∧ (x <= 30)%Q) c.
Proof.
  unfold script.
  destruct (apply_filters tu (load_data tu trips zones) w) as [df|ex] eqn:E;
    [|done].
  destruct df as [|t df]; [done|]. cbn [fst snd].
  rewrite render_dist_clipped. intros [= <-].
  destruct (render_frame (t :: df)
              (assign_df (t :: df)
                 {| v_df_full := load_data tu trips zones; v_df := None;
                    v_dist_clipped := None; v_ui := [] |})) as [_ ->].
  split.
  - exists (t :: df). split; [done|]. split; [done|].
    unfold clip_distances. rewrite length_map.
    apply sublist_length, filter_sublist.
  - apply List.Forall_forall. intros o Ho. unfold clip_distances in Ho.
    apply in_map_iff in Ho. destruct Ho as (t' & <- & Ht').
    apply filter_In in Ht'. destruct Ht' as [Ht' Hle].
    destruct (filtered_row tu trips zones w (t :: df) t' E Ht')
      as (_ & (_ & (x & Hx & Hpos) & _) & _).
    rewrite Hx in *. simpl in Hle. apply Qleb_true in Hle. eauto.
Qed.

Lemma dist_clipped_within_30_witness :
  Forall (λ o, ∃ x, o = Some x ∧ (0 < x)%Q ∧ (x <= 30)%Q) [Some 2.5%Q].
Proof.
  apply (dist_clipped_within_30 us sample_trips sample_zones
           sample_widgets_none [Some 2.5%Q]).
  vm_compute. reflexivity.
Defined.

(** ** The metrics *)

Lemma inject_Z_length_cons {A} (x : A) xs :
  (inject_Z (Z.of_nat (length (x :: xs))) == inject_Z (Z.of_nat (length xs)) + 1)%Q.
Proof.
  simpl length. rewrite Nat2Z.inj_succ, <- Z.add_1_r, inject_Z_plus. reflexivity.
Qed.

Lemma inject_Z_length_nonneg {A} (xs : list A) :
  (0 <= inject_Z (Z.of_nat (length xs)))%Q.
Proof.
  change 0%Q with (inject_Z 0). rewrite <- Zle_Qle. lia.
Qed.

Lemma Qsum_upper hi xs :
  Forall (λ x, (x <= hi)%Q) xs →
  (Qsum xs <= hi * inject_Z (Z.of_nat (length xs)))%Q.
Proof.
  induction 1 as [|x xs Hx _ IH].
  - simpl. rewrite Qmult_0_r. apply Qle_refl.
  - rewrite inject_Z_length_cons. simpl Qsum.
    assert (hi * (inject_Z (Z.of_nat (length xs)) + 1)
            == hi * inject_Z (Z.of_nat (length xs)) + hi)%Q as -> by ring.
    set (n := (hi * inject_Z (Z.of_nat (length xs)))%Q) in *.
    fold (Qsum xs). lra.
Qed.

Lemma Qsum_nonneg xs : Forall (λ x, (0 <= x)%Q) xs → (0 <= Qsum xs)%Q.
Proof.
  induction 1 as [|x xs Hx _ IH]; simpl; lra.
Qed.

Lemma Qsum_pos x xs : Forall (λ x, (0 < x)%Q) (x :: xs) → (0 < Qsum (x :: xs))%Q.
Proof.
  intros H. inversion H as [|? ? Hx Hxs]; subst. simpl.
  assert (0 <= Qsum xs)%Q; [|lra].
  apply Qsum_nonneg. eapply Forall_impl; [exact Hxs|].
  intros y Hy. simpl in Hy. lra.
Qed.

Lemma dropna_map_Some {A B} (f : A → option B) (g : A → B) (l : list A) :
  (∀ a, In a l → f a = Some (g a)) →
  dropna (List.map f l) = List.map g l.
Proof.
  unfold dropna. induction l as [|a l IH]; intros H; [done|].
  simpl. rewrite (H a) by (by left). simpl. f_equal.
  apply IH. intros b Hb. apply H. by right.
Qed.

Lemma dropna_cons_Some {A} (x : A) col :
  dropna (Some x :: col) = x :: dropna col.
Proof. reflexivity. Qed.

Lemma dropna_all_present {A} (f : A → option Q) (P : Q → Prop) (l : list A) :
  (∀ b, In b l → ∃ x, f b = Some x ∧ P x) →
  ∃ xs, dropna (List.map f l) = xs ∧ length xs = length l ∧ Forall P xs.
Proof.
  induction l as [|b bs IH]; intros H; [by exists []|].
  destruct IH as (ys & Hys & Hl & HPs); [intros c Hc; apply H; by right|].
  destruct (H b ltac:(by left)) as (x & Hx & HPx).
  exists (x :: ys). cbn [List.map]. rewrite Hx, dropna_cons_Some, Hys.
  repeat split; [simpl; lia|by constructor].
Qed.

(** The mean of a column with no missing value, over at least one row. *)
Lemma series_mean_all_present {A} (f : A → option Q) (P : Q → Prop)
    (a : A) (l : list A) :
  (∀ b, In b (a :: l) → ∃ x, f b = Some x ∧ P x) →
  ∃ xs, xs ≠ [] ∧ Forall P xs
        ∧ series_mean (List.map f (a :: l))
          = Some (Qsum xs / inject_Z (Z.of_nat (length xs)))%Q.
Proof.
  intros H.
  destruct (dropna_all_present f P (a :: l) H) as (xs & Hxs & Hlen & HP).
  exists xs. split; [by intros ->|]. split; [done|].
  unfold series_mean. rewrite Hxs. by destruct xs.
Qed.

Lemma mean_pos xs :
  xs ≠ [] → Forall (λ x, (0 < x)%Q) xs →
  (0 < Qsum xs / inject_Z (Z.of_nat (length xs)))%Q.
Proof.
  intros Hne H. destruct xs as [|x xs]; [done|].
  apply Qdiv_pos; [by apply Qsum_pos|].
  rewrite inject_Z_length_cons. pose proof (inject_Z_length_nonneg xs). lra.
Qed.

Lemma mean_nonneg xs :
  xs ≠ [] → Forall (λ x, (0 <= x)%Q) xs →
  (0 <= Qsum xs / inject_Z (Z.of_nat (length xs)))%Q.
Proof.
  intros Hne H. destruct xs as [|x xs]; [done|].
  apply Qle_shift_div_l.
  - rewrite inject_Z_length_cons. pose proof (inject_Z_length_nonneg xs). lra.
  - rewrite Qmult_0_l. by apply Qsum_nonneg.
Qed.

Lemma mean_upper hi xs :
  xs ≠ [] → Forall (λ x, (x <= hi)%Q) xs →
  (Qsum xs / inject_Z (Z.of_nat (length xs)) <= hi)%Q.
Proof.
  intros Hne H. destruct xs as [|x xs]; [done|].
  apply Qle_shift_div_r.
  - rewrite inject_Z_length_cons. pose proof (inject_Z_length_nonneg xs). lra.
  - by apply Qsum_upper.
Qed.

(** X11.  On a filtered table that is not empty, built from [load_data],
    the averages shown as metrics exist: the average fare is in (0, 500] and
    the average distance is positive; the average duration is not negative
    when no filtered trip is dropped off 2^63 ticks or more after its pickup
    (a difference that wraps around). *)
Theorem metrics_within_bounds tu trips zones w df :
  apply_filters tu (load_data tu trips zones) w = Ok df →
  df ≠ [] →
  (∃ m, kpi_avg_fare df = Some m ∧ (0 < m)%Q ∧ (m <= 500)%Q)
  ∧ (∃ m, kpi_avg_distance df = Some m ∧ (0 < m)%Q)
  ∧ ((∀ t p d, In t df →
               tpep_pickup_datetime (raw t) = Some p →
               tpep_dropoff_datetime (raw t) = Some d →
               d - p < 2 ^ 63) →
     ∃ m, kpi_avg_duration df = Some m ∧ (0 <= m)%Q).
Proof.
  intros E Hne. destruct df as [|t df]; [done|].
  assert (∀ b, In b (t :: df) →
               (∃ x, fare_amount (raw b) = Some x ∧ (0 < x ∧ x <= 500)%Q)
               ∧ (∃ x, trip_distance (raw b) = Some x ∧ (0 < x)%Q)) as Hrow.
  { intros b Hb.
    destruct (filtered_row tu trips zones w (t :: df) b E Hb)
      as (_ & (_ & Hx & (f & Hf & Hf0 & Hf500) & _) & _).
    eauto 10. }
  unfold kpi_avg_fare, kpi_avg_distance, kpi_avg_duration.
  split; [|split].
  - destruct (series_mean_all_present (λ b, fare_amount (raw b))
                (λ x, (0 < x ∧ x <= 500)%Q) t df) as (xs & Hxs & HP & ->).
    { intros b Hb. apply (Hrow b Hb). }
    eexists. split; [reflexivity|]. split.
    + apply mean_pos; [done|]. eapply Forall_impl; [exact HP|]. by intros ? [? _].
    + apply mean_upper; [done|]. eapply Forall_impl; [exact HP|]. by intros ? [_ ?].
  - destruct (series_mean_all_present (λ b, trip_distance (raw b))
                (λ x, (0 < x)%Q) t df) as (xs & Hxs & HP & ->).
    { intros b Hb. apply (Hrow b Hb). }
    eexists. split; [reflexivity|]. by apply mean_pos.
  - intros Hsmall.
    destruct (series_mean_all_present trip_duration_minutes
                (λ x, (0 <= x)%Q) t df) as (xs & Hxs & HP & ->).
    { intros b Hb.
      destruct (filtered_row tu trips zones w (t :: df) b E Hb)
        as (_ & _ & _ & _ & (p & d & dur & Hp & Hd & Hdur & Hnn) & _).
      exists dur. split; [done|]. apply Hnn. by eapply Hsmall. }
    eexists. split; [reflexivity|]. by apply mean_nonneg.
Qed.

Lemma metrics_within_bounds_witness :
  (∃ m, kpi_avg_fare [unified_row us row_C sample_midtown no_zone] = Some m
        ∧ (0 < m)%Q ∧ (m <= 500)%Q)
  ∧ (∃ m, kpi_avg_distance [unified_row us row_C sample_midtown no_zone] = Some m
          ∧ (0 < m)%Q)
  ∧ (∃ m, kpi_avg_duration [unified_row us row_C sample_midtown no_zone] = Some m
          ∧ (0 <= m)%Q).
Proof.
  destruct (metrics_within_bounds us sample_trips sample_zones
              sample_widgets_none
              [unified_row us row_C sample_midtown no_zone])
    as (Hfare & Hdist & Hdur).
  - vm_compute. reflexivity.
  - discriminate.
  - split; [exact Hfare|]. split; [exact Hdist|]. apply Hdur.
    intros t p d [<-|[]] [= <-] [= <-]. vm_compute. reflexivity.
Defined.

(** ** Sorting and grouping *)

Lemma insert_sorted_perm x l : insert_sorted x l ≡ₚ x :: l.
Proof.
  induction l as [|y l IH]; simpl; [done|].
  destruct (String.leb x y); [done|]. rewrite IH. apply Permutation_swap.
Qed.

Lemma sorted_perm l : sorted l ≡ₚ l.
Proof.
  unfold sorted. induction l as [|x l IH]; simpl; [done|].
  by rewrite insert_sorted_perm, IH.
Qed.

Lemma insert_sorted_Sorted x l :
  Sorted (λ a b, String.leb a b = true) l →
  Sorted (λ a b, String.leb a b = true) (insert_sorted x l).
Proof.
  induction 1 as [|y l Hl IH Hhd]; simpl; [by repeat constructor|].
  destruct (String.leb x y) eqn:E.
  - by repeat constructor.
  - constructor; [done|].
    assert (String.leb y x = true) as Hyx
      by (destruct (String.leb_total x y); congruence).
    destruct l as [|z l]; simpl; [by constructor|].
    destruct (String.leb x z); constructor; [done|by inversion Hhd].
Qed.

Lemma sorted_Sorted l : Sorted (λ a b, String.leb a b = true) (sorted l).
Proof.
  unfold sorted. induction l as [|x l IH]; simpl; [constructor|].
  by apply insert_sorted_Sorted.
Qed.

Lemma NoDup_unique_from seen l : NoDup (unique_from seen l).
Proof.
  revert seen. induction l as [|x l IH]; intros seen; simpl; [constructor|].
  case_bool_decide; [done|]. constructor; [|done].
  rewrite list_elem_of_In, in_unique_from. intros [_ Hx]. apply Hx. by left.
Qed.

Lemma NoDup_sorted_unique l : NoDup (sorted (unique l)).
Proof. rewrite sorted_perm. apply NoDup_unique_from. Qed.

Lemma in_sorted_unique l x : In x (sorted (unique l)) ↔ In x l.
Proof.
  unfold unique. rewrite in_sorted, in_unique_from. split; [tauto|].
  intros H. split; [done|]. apply not_elem_of_nil.
Qed.

Lemma sum_list_map_add {A} (f g : A → nat) (K : list A) :
  sum_list (List.map (λ k, f k + g k)%nat K)
  = (sum_list (List.map f K) + sum_list (List.map g K))%nat.
Proof. induction K as [|k K IH]; simpl; lia. Qed.

Lemma sum_list_indicator (K : list string) x :
  NoDup K → In x K →
  sum_list (List.map (λ k, if String.eqb k x then 1 else 0)%nat K) = 1%nat.
Proof.
  induction 1 as [|k K Hk HK IH]; [done|]. simpl. intros [->|Hx].
  - rewrite String.eqb_refl.
    assert (sum_list (List.map (λ k, if String.eqb k x then 1 else 0)%nat K)
            = 0%nat) as ->; [|done].
    clear IH HK. induction K as [|y K IH]; [done|]. simpl.
    apply not_elem_of_cons in Hk. destruct Hk as [Hne Hk].
    destruct (String.eqb_spec y x) as [->|_]; [done|]. by apply IH.
  - destruct (String.eqb_spec k x) as [->|_].
    + exfalso. apply Hk. by apply list_elem_of_In.
    + by apply IH.
Qed.

(** Counting, for every key of a list without repetition, the entries that
    carry it, counts every entry once. *)
Lemma sum_of_group_sizes (K ks : list string) :
  NoDup K → (∀ x, In x ks → In x K) →
  sum_list (List.map (λ k, length (List.filter (String.eqb k) ks)) K)
  = length ks.
Proof.
  intros HK. induction ks as [|x ks IH]; intros Hin.
  - clear. induction K as [|k K IHK]; [done|]. simpl. exact IHK.
  - transitivity
      (sum_list
         (List.map (λ k, (if String.eqb k x then 1 else 0)
                         + length (List.filter (String.eqb k) ks))%nat K)).
    { f_equal. apply map_ext. intros k. simpl.
      by destruct (String.eqb k x). }
    rewrite sum_list_map_add, sum_list_indicator, IH.
    + done.
    + intros y Hy. apply Hin. by right.
    + done.
    + apply Hin. by left.
Qed.

Lemma apply_filters_rows tu df_full w df :
  apply_filters tu df_full w = Ok df →
  sublist df df_full
  ∧ ∀ t, In t df →
         In t df_full
         ∧ ∃ l, payment_label t = Some l
                ∧ In l (wanted_payments df_full (selected_payments w)).
Proof.
  unfold apply_filters.
  destruct (date_bounds (date_range w)) as [[s e]|ex]; simpl; [|done].
  intros [= <-]. split; [apply filter_sublist|].
  intros t Ht. apply filter_In in Ht. destruct Ht as [Hin Hm].
  apply mask_true in Hm. tauto.
Qed.

Lemma dropna_all_present_gen {A B} (f : A → option B) (l : list A) :
  (∀ b, In b l → ∃ x, f b = Some x) →
  length (dropna (List.map f l)) = length l
  ∧ ∀ x, In x (dropna (List.map f l)) ↔ ∃ b, In b l ∧ f b = Some x.
Proof.
  intros H. split.
  - induction l as [|b bs IH]; [done|].
    destruct (H b ltac:(by left)) as (x & Hx).
    cbn [List.map]. rewrite Hx. simpl. f_equal.
    apply IH. intros c Hc. apply H. by right.
  - intros x. rewrite in_dropna, in_map_iff.
    split; intros (b & Hb & Hin); eauto.
Qed.

(** X12.  The payment counts of a filtered table have one row per payment
    label present, each with a count of at least one, for labels that were
    wanted; the counts add up to the number of filtered rows, the "Total
    Trips" metric. *)
Theorem pay_counts_total tu df_full w df :
  apply_filters tu df_full w = Ok df →
  sum_list (List.map snd (pay_counts df)) = kpi_total_trips df
  ∧ NoDup (List.map fst (pay_counts df))
  ∧ ∀ l n, In (l, n) (pay_counts df) →
           (1 ≤ n)%nat
           ∧ In l (wanted_payments df_full (selected_payments w)).
Proof.
  intros E.
  destruct (apply_filters_rows tu df_full w df E) as [Hsub Hrows].
  unfold pay_counts, group_sizes, kpi_total_trips.
  set (ks := dropna (List.map payment_label df)).
  assert (length ks = length df) as Hlen.
  { destruct (dropna_all_present_gen payment_label df) as [Hl _]; [|done].
    intros t Ht. destruct (Hrows t Ht) as (_ & l & Hl & _). eauto. }
  rewrite !map_map. simpl. split; [|split].
  - rewrite <- Hlen. apply sum_of_group_sizes.
    + apply NoDup_sorted_unique.
    + intros x Hx. by apply in_sorted_unique.
  - rewrite map_id. apply NoDup_sorted_unique.
  - intros l n Hin. apply in_map_iff in Hin.
    destruct Hin as (k & [= <- <-] & Hk). rewrite in_sorted_unique in Hk.
    split.
    + assert (In k (List.filter (String.eqb k) ks)) as Hf.
      { apply filter_In. split; [exact Hk|]. apply String.eqb_refl. }
      destruct (List.filter _ ks); [destruct Hf|simpl; lia].
    + apply in_dropna, in_map_iff in Hk. destruct Hk as (t & Ht & Hin).
      destruct (Hrows t Hin) as (_ & l & Hl & Hw). congruence.
Qed.

Lemma pay_counts_total_witness :
  sum_list (List.map snd (pay_counts [unified_row us row_C sample_midtown no_zone]))
  = kpi_total_trips [unified_row us row_C sample_midtown no_zone]
  ∧ NoDup (List.map fst (pay_counts [unified_row us row_C sample_midtown no_zone]))
  ∧ ∀ l n, In (l, n) (pay_counts [unified_row us row_C sample_midtown no_zone]) →
           (1 ≤ n)%nat
           ∧ In l (wanted_payments sample_table
                     (selected_payments sample_widgets_none)).
Proof.
  apply (pay_counts_total us sample_table sample_widgets_none).
  vm_compute. reflexivity.
Defined.

Lemma payment_get_label c :
  In (payment_get c) ["Cash"; "Credit Card"; "Dispute"; "No Charge"; "Unknown"].
Proof.
  rewrite payment_get_enumeration. unfold label_of_code.
  destruct c as [|[[[]|[]|]|[[]|[]|]|]|]; simpl; tauto.
Qed.

(** X13.  The payment types offered by the multiselect are in ascending
    order, without repetition, and are labels of the payment enumeration:
    there are at most five of them. *)
Theorem payment_options_sorted_distinct tu trips zones :
  Sorted (λ a b, String.leb a b = true)
         (all_payment_types (load_data tu trips zones))
  ∧ NoDup (all_payment_types (load_data tu trips zones))
  ∧ (∀ l, In l (all_payment_types (load_data tu trips zones)) →
          In l ["Cash"; "Credit Card"; "Dispute"; "No Charge"; "Unknown"])
  ∧ (length (all_payment_types (load_data tu trips zones)) ≤ 5)%nat.
Proof.
  assert (∀ l, In l (all_payment_types (load_data tu trips zones)) →
               In l ["Cash"; "Credit Card"; "Dispute"; "No Charge"; "Unknown"])
    as Hlabels.
  { intros l Hl. apply in_all_payment_types in Hl.
    destruct Hl as (t & Ht & Hl). apply in_load_data in Ht.
    destruct Ht as (r & pu & do & _ & _ & _ & _ & ->).
    change (payment_label (unified_row tu r pu do))
      with (payment_label_expr (payment_type r)) in Hl.
    destruct (payment_type r) as [c|]; [|done]. injection Hl as <-.
    apply payment_get_label. }
  assert (NoDup (all_payment_types (load_data tu trips zones))) as Hnd
    by apply NoDup_sorted_unique.
  split; [apply sorted_Sorted|]. split; [done|]. split; [done|].
  change 5%nat
    with (length ["Cash"; "Credit Card"; "Dispute"; "No Charge"; "Unknown"]).
  apply submseteq_length, NoDup_submseteq; [done|].
  intros l Hl. apply list_elem_of_In, Hlabels. by apply list_elem_of_In.
Qed.

Lemma in_unique_Z_from seen l y :
  In y (unique_Z_from seen l) ↔ In y l ∧ y ∉ seen.
Proof.
  revert seen. induction l as [|x l IH]; intros seen; simpl; [intuition|].
  case_bool_decide as Hx; simpl; rewrite IH.
  - split; [intuition|]. intros [[->|Hy] Hn]; [done|auto].
  - rewrite not_elem_of_cons. split.
    + intros [->|[Hy [Hne Hn]]]; auto.
    + intros [[->|Hy] Hn]; [auto|].
      destruct (decide (y = x)) as [->|Hne]; auto.
Qed.

Lemma NoDup_unique_Z_from seen l : NoDup (unique_Z_from seen l).
Proof.
  revert seen. induction l as [|x l IH]; intros seen; simpl; [constructor|].
  case_bool_decide; [done|]. constructor; [|done].
  rewrite list_elem_of_In, in_unique_Z_from. intros [_ Hx]. apply Hx. by left.
Qed.

Lemma insert_sorted_Z_perm x l : insert_sorted_Z x l ≡ₚ x :: l.
Proof.
  induction l as [|y l IH]; simpl; [done|].
  destruct (x <=? y); [done|]. rewrite IH. apply Permutation_swap.
Qed.

Lemma sorted_Z_perm l : sorted_Z l ≡ₚ l.
Proof.
  unfold sorted_Z. induction l as [|x l IH]; simpl; [done|].
  by rewrite insert_sorted_Z_perm, IH.
Qed.

Lemma insert_sorted_Z_increasing x l :
  Sorted Z.lt l → ¬ In x l → Sorted Z.lt (insert_sorted_Z x l).
Proof.
  induction 1 as [|y l Hl IH Hhd]; simpl; intros Hx; [by repeat constructor|].
  destruct (Z.leb_spec x y).
  - repeat constructor; [done|done|].
    assert (x ≠ y) by (intros ->; apply Hx; by left). lia.
  - constructor; [apply IH; intros Hin; apply Hx; by right|].
    destruct l as [|z l]; simpl; [by constructor|].
    destruct (x <=? z); constructor; [done|by inversion Hhd].
Qed.

(** Sorting integers that are all different gives an increasing list. *)
Lemma sorted_Z_increasing l : NoDup l → Sorted Z.lt (sorted_Z l).
Proof.
  unfold sorted_Z. induction 1 as [|x l Hx Hl IH]; simpl; [constructor|].
  apply insert_sorted_Z_increasing; [done|].
  fold (sorted_Z l). rewrite <- list_elem_of_In, sorted_Z_perm. done.
Qed.

Lemma hours_at_most_24 (hs : list Z) :
  NoDup hs → (∀ h, In h hs → 0 <= h <= 23) → (length hs ≤ 24)%nat.
Proof.
  intros Hnd Hr. change 24%nat with (length (seqZ 0 24)).
  apply submseteq_length, NoDup_submseteq; [done|].
  intros h Hh. apply elem_of_seqZ. apply list_elem_of_In, Hr in Hh. lia.
Qed.

(** X14.  The line of average fares has one point per pickup hour present
    in the filtered table, by increasing hour, so at most 24 points; each
    hour is between 0 and 23 and each average fare exists and is in
    (0, 500]. *)
Theorem fare_by_hour_points tu trips zones w df :
  apply_filters tu (load_data tu trips zones) w = Ok df →
  Sorted Z.lt (List.map fst (fare_by_hour df))
  ∧ (length (fare_by_hour df) ≤ 24)%nat
  ∧ ∀ h avg, In (h, avg) (fare_by_hour df) →
             0 <= h <= 23
             ∧ (∃ t, In t df ∧ pickup_hour t = Some h)
             ∧ ∃ m, avg = Some m ∧ (0 < m)%Q ∧ (m <= 500)%Q.
Proof.
  intros E. unfold fare_by_hour.
  set (hs := dropna (List.map pickup_hour df)).
  assert (∀ h, In h (sorted_Z (unique_Z_from [] hs))
               ↔ ∃ t, In t df ∧ pickup_hour t = Some h) as Hkeys.
  { intros h. rewrite <- list_elem_of_In, sorted_Z_perm, list_elem_of_In.
    rewrite in_unique_Z_from. unfold hs. rewrite in_dropna, in_map_iff.
    split.
    - intros [(t & Ht & Hin) _]. eauto.
    - intros (t & Hin & Ht). split; [eauto|apply not_elem_of_nil]. }
  assert (∀ h, In h (sorted_Z (unique_Z_from [] hs)) → 0 <= h <= 23) as Hrange.
  { intros h Hh. apply Hkeys in Hh. destruct Hh as (t & Hin & Ht).
    destruct (filtered_row tu trips zones w df t E Hin)
      as (_ & _ & (h' & Hh' & Hb) & _).
    congruence. }
  assert (NoDup (sorted_Z (unique_Z_from [] hs))) as Hnd.
  { rewrite sorted_Z_perm. apply NoDup_unique_Z_from. }
  rewrite map_map, length_map. simpl. rewrite map_id.
  split; [apply sorted_Z_increasing, NoDup_unique_Z_from|].
  split; [by apply hours_at_most_24|].
  intros h avg Hin. apply in_map_iff in Hin.
  destruct Hin as (h' & [= -> <-] & Hh).
  split; [by apply Hrange|]. split; [by apply Hkeys|].
  apply Hkeys in Hh. destruct Hh as (t & Hin & Ht).
  assert (In t (List.filter (λ t, pd_cmp Z.eqb (pickup_hour t) h) df)) as Hg.
  { apply filter_In. split; [done|]. rewrite Ht. simpl. apply Z.eqb_refl. }
  destruct (List.filter _ df) as [|a g] eqn:Eg; [destruct Hg|].
  destruct (series_mean_all_present (λ b, fare_amount (raw b))
              (λ x, (0 < x ∧ x <= 500)%Q) a g) as (xs & Hxs & HP & ->).
  { intros b Hb.
    assert (In b df) as Hbdf.
    { assert (In b (List.filter (λ t, pd_cmp Z.eqb (pickup_hour t) h) df))
        as Hb' by (by rewrite Eg).
      apply filter_In in Hb'. tauto. }
    destruct (filtered_row tu trips zones w df b E Hbdf)
      as (_ & (_ & _ & (f & Hf & Hf0 & Hf500) & _) & _).
    eauto. }
  eexists. split; [reflexivity|]. split.
  - apply mean_pos; [done|]. eapply Forall_impl; [exact HP|]. by intros ? [? _].
  - apply mean_upper; [done|]. eapply Forall_impl; [exact HP|]. by intros ? [_ ?].
Qed.

Lemma fare_by_hour_points_witness :
  Sorted Z.lt (List.map fst
                 (fare_by_hour [unified_row us row_C sample_midtown no_zone]))
  ∧ (length (fare_by_hour [unified_row us row_C sample_midtown no_zone]) ≤ 24)%nat
  ∧ ∀ h avg,
      In (h, avg) (fare_by_hour [unified_row us row_C sample_midtown no_zone]) →
      0 <= h <= 23
      ∧ (∃ t, In t [unified_row us row_C sample_midtown no_zone]
              ∧ pickup_hour t = Some h)
      ∧ ∃ m, avg = Some m ∧ (0 < m)%Q ∧ (m <= 500)%Q.
Proof.
  apply (fare_by_hour_points us sample_trips sample_zones sample_widgets_none).
  vm_compute. reflexivity.
Defined.

(** X15.  The rows of the heatmap are the pickup days present in the
    filtered table, in the order of the week and without repetition; the day
    of every filtered trip is one of them. *)
Theorem heatmap_index_in_week_order tu trips zones w df :
  apply_filters tu (load_data tu trips zones) w = Ok df →
  sublist (heatmap_index df) DAY_ORDER
  ∧ (∀ d, In d (heatmap_index df)
          ↔ ∃ t, In t df ∧ pickup_day_of_week t = Some d).
Proof.
  intros E. split; [apply filter_sublist|].
  intros d. unfold heatmap_index, heatmap_days.
  rewrite filter_In, bool_decide_eq_true, list_elem_of_In.
  unfold unique. rewrite in_unique_from, in_dropna, in_map_iff. split.
  - intros (_ & (t & Ht & Hin) & _). exists t. split; [done|].
    by destruct (Pl.is_not_null (pickup_hour t)).
  - intros (t & Hin & Ht).
    destruct (filtered_row tu trips zones w df t E Hin)
      as (_ & _ & (h & Hh & _) & (d' & Hd' & Hday) & _).
    assert (d' = d) as -> by congruence.
    split; [done|]. split; [|apply not_elem_of_nil].
    exists t. split; [|done]. by rewrite Hh.
Qed.

Lemma heatmap_index_in_week_order_witness :
  sublist (heatmap_index [unified_row us row_C sample_midtown no_zone]) DAY_ORDER
  ∧ (∀ d, In d (heatmap_index [unified_row us row_C sample_midtown no_zone])
          ↔ ∃ t, In t [unified_row us row_C sample_midtown no_zone]
                 ∧ pickup_day_of_week t = Some d).
Proof.
  apply (heatmap_index_in_week_order us sample_trips sample_zones
           sample_widgets_none).
  vm_compute. reflexivity.
Defined.

(** ** Further properties of the fetcher *)

(** X16.  A call of [_download_if_missing], however it ends, leaves every
    file other than the destination as it was, removes no directory, and
    sends at most one request, for its own url and only when the
    destination was missing. *)
Theorem download_touches_only_destination url path w w' e :
  _download_if_missing url path w = (w', e) →
  (∀ other, other ≠ path → files w' !! other = files w !! other)
  ∧ dirs w ⊆ dirs w'
  ∧ (requests_sent w' = requests_sent w
     ∨ (requests_sent w' = requests_sent w ++ [url]
        ∧ path_exists path w = false)).
Proof.
  intros H. apply download_cases in H.
  destruct H as [(_ & -> & _)|[(_ & -> & _)|[(Hm & _ & _ & -> & _)|
                 (Hm & _ & _ & _ & _ & r & cs & b & _ & _ & _ & -> & _)]]].
  - repeat split; [done|by left].
  - repeat split; [done|by left].
  - repeat split; [|right; done]. simpl. apply union_subseteq_r.
  - destruct (write_all_frame path cs
                (create_file path (after_request url path w)))
      as (Hd & Hr & Hf).
    split; [|split].
    + intros other Hne. rewrite Hf by done. simpl.
      by rewrite lookup_insert_ne.
    + rewrite Hd. simpl. apply union_subseteq_r.
    + right. by rewrite Hr.
Qed.

Lemma download_touches_only_destination_witness :
  ∃ w', _download_if_missing ZONE_URL ZONE_PATH sample_world_403
        = (w', Some (HTTPError 403))
        ∧ (∀ other, other ≠ ZONE_PATH →
                    files w' !! other = files sample_world_403 !! other)
        ∧ dirs sample_world_403 ⊆ dirs w'
        ∧ (requests_sent w' = requests_sent sample_world_403
           ∨ (requests_sent w' = requests_sent sample_world_403 ++ [ZONE_URL]
              ∧ path_exists ZONE_PATH sample_world_403 = false)).
Proof.
  exists (after_request ZONE_URL ZONE_PATH sample_world_403).
  assert (_download_if_missing ZONE_URL ZONE_PATH sample_world_403
          = (after_request ZONE_URL ZONE_PATH sample_world_403,
             Some (HTTPError 403))) as H by reflexivity.
  split; [exact H|].
  exact (download_touches_only_destination _ _ _ _ _ H).
Defined.

(** X17.  Once a call has returned, or has been cut off while streaming,
    the destination exists and a second call does nothing: it sends no
    request and changes no file, whatever the first one wrote. *)
Theorem download_again_does_nothing url path w w' e :
  _download_if_missing url path w = (w', e) →
  e = None ∨ e = Some ChunkedEncodingError →
  path_exists path w' = true
  ∧ _download_if_missing url path w' = (w', None).
Proof.
  intros H He.
  assert (path_exists path w' = true) as Hex.
  { apply download_cases in H.
    destruct H as [(Hp & -> & _)|[(_ & _ & [[_ Hf]|[[_ Hf]|[_ Hf]]])|
                   [(_ & _ & _ & _ & [[_ Hf]|[(r & _ & _ & Hf)|
                                              (r & _ & _ & _ & Hf)]])|
                    (_ & _ & _ & _ & _ & r & cs & b & _ & _ & _ & -> & _)]]];
      try done; try (subst e; destruct He; discriminate).
    apply path_exists_file. rewrite written_file. eauto. }
  split; [done|]. unfold _download_if_missing. by rewrite Hex.
Qed.

Lemma download_again_does_nothing_witness :
  ∃ w', _download_if_missing ZONE_URL ZONE_PATH sample_world_broken
        = (w', Some ChunkedEncodingError)
        ∧ path_exists ZONE_PATH w' = true
        ∧ _download_if_missing ZONE_URL ZONE_PATH w' = (w', None).
Proof.
  eexists. split; [reflexivity|].
  eapply (download_again_does_nothing ZONE_URL ZONE_PATH sample_world_broken).
  - reflexivity.
  - right. reflexivity.
Defined.



Lemma concat_take_prefix {A} (cs : list (list A)) k :
  concat (take k cs) `prefix_of` concat cs.
Proof.
  exists (concat (drop k cs)). by rewrite <- concat_app, take_drop.
Qed.

Lemma concat_take_shorter {A} (cs : list (list A)) k :
  Forall (λ c, c ≠ []) cs → (k < length cs)%nat →
  (length (concat (take k cs)) < length (concat cs))%nat.
Proof.
  intros Hne Hk. rewrite <- (take_drop k cs) at 2.
  rewrite concat_app, length_app.
  destruct (drop k cs) as [|c rest] eqn:E.
  - apply (f_equal length) in E. rewrite length_drop in E. simpl in E. lia.
  - assert (c ∈ cs) as Hc.
    { rewrite <- (take_drop k cs), E. apply elem_of_app. right.
      apply list_elem_of_here. }
    rewrite Forall_forall in Hne. specialize (Hne c Hc).
    simpl. rewrite length_app. destruct c; [done|]. simpl. lia.
Qed.

Lemma delivered_pieces_nonempty (ps : list (list Byte.byte)) :
  Forall (λ c, c ≠ []) (List.filter (λ c, negb (is_empty_piece c)) ps).
Proof.
  apply List.Forall_forall. intros c Hc. apply filter_In in Hc.
  destruct Hc as [_ Hc]. by destruct c.
Qed.

(** X20.  A download cut off while streaming leaves at the destination a
    file that holds a beginning of the body, shorter than the body. *)
Theorem broken_download_leaves_truncated_file url path w w' :
  _download_if_missing url path w = (w', Some ChunkedEncodingError) →
  ∃ r partial,
    remote w url = Some r
    ∧ files w' !! path = Some partial
    ∧ partial `prefix_of` body r
    ∧ (length partial < length (body r))%nat.
Proof.
  intros H. apply download_cases in H.
  destruct H as [(_ & _ & [=])|[(_ & _ & [[_ [=]]|[[_ [=]]|[_ [=]]]])|
                 [(_ & _ & _ & _ & [[_ [=]]|[(r & _ & _ & [=])|
                                             (r & _ & _ & _ & [=])]])|
                  (_ & _ & _ & _ & _ & r & cs & b & Hr & _ & Hit & -> & Hb)]]].
  destruct b; [|done]. exists r, (concat cs).
  split; [done|]. split; [apply written_file|].
  unfold iter_content in Hit. destruct (drops_after r) as [k|]; [|done].
  injection Hit as <- Hk. apply bool_decide_eq_true in Hk.
  unfold body. rewrite <- (concat_nonempty_pieces (pieces r)).
  split; [apply concat_take_prefix|].
  apply concat_take_shorter; [apply delivered_pieces_nonempty|done].
Qed.

Lemma broken_download_leaves_truncated_file_witness :
  ∃ r partial,
    remote sample_world_broken ZONE_URL = Some r
    ∧ files (write_all ZONE_PATH [[Byte.x4c; Byte.x6f]]
               (create_file ZONE_PATH
                  (after_request ZONE_URL ZONE_PATH sample_world_broken)))
      !! ZONE_PATH = Some partial
    ∧ partial `prefix_of` body r
    ∧ (length partial < length (body r))%nat.
Proof.
  apply (broken_download_leaves_truncated_file ZONE_URL ZONE_PATH
           sample_world_broken).
  reflexivity.
Defined.

Lemma upto_last_slash_none p :
  slash ∉ list_ascii_of_string p → upto_last_slash p = None.
Proof.
  induction p as [|c p IH]; simpl; [done|].
  rewrite not_elem_of_cons. intros [Hc Hp]. rewrite IH by done.
  destruct (Ascii.eqb_spec c slash); [congruence|done].
Qed.

(** X21.  A destination without a directory part (no slash in its name)
    that does not exist cannot be fetched: [os.makedirs] is asked to make
    the empty path, the call ends with [FileNotFoundError], and nothing has
    been requested or written. *)
Theorem bare_filename_is_not_fetched url path w :
  slash ∉ list_ascii_of_string path →
  path_exists path w = false →
  _download_if_missing url path w = (w, Some FileNotFoundError).
Proof.
  intros Hs Hp. unfold _download_if_missing. rewrite Hp. simpl.
  unfold dirname. rewrite upto_last_slash_none by done. done.
Qed.

Lemma bare_filename_is_not_fetched_witness :
  _download_if_missing ZONE_URL "taxi_zone_lookup.csv" sample_world_fresh
  = (sample_world_fresh, Some FileNotFoundError).
Proof.
  apply (bare_filename_is_not_fetched ZONE_URL "taxi_zone_lookup.csv"
           sample_world_fresh).
  - vm_compute. intros H.
    repeat (apply elem_of_cons in H; destruct H as [H|H]; [discriminate H|]).
    by apply elem_of_nil in H.
  - reflexivity.
Defined.

(** X22.  A failure to reach the server, or an error status, is not
    remembered: for a destination in plain form the destination is still
    missing afterwards, so the next call sends the request again. *)
Theorem failed_download_is_retried url path w w' e :
  _download_if_missing url path w = (w', Some e) →
  e = ConnectionError ∨ (∃ s, e = HTTPError s) →
  plain_path path = true →
  path_exists path w' = false
  ∧ ∃ w'' e', _download_if_missing url path w' = (w'', e')
              ∧ requests_sent w'' = requests_sent w ++ [url; url].
Proof.
  intros H He Hplain.
  destruct (plain_path_names_file path Hplain) as (Hne & Hslash & _).
  assert (e ≠ FileNotFoundError ∧ e ≠ NotADirectoryError
          ∧ e ≠ FileExistsError ∧ e ≠ ChunkedEncodingError)
    as (He1 & He2 & He3 & He4).
  { destruct He as [->|[s ->]]; done. }
  apply download_cases in H.
  destruct H as [(_ & _ & [=])|
                 [(_ & _ & [[_ [= Hx]]|[[_ [= Hx]]|[_ [= Hx]]]])|
                  [(Hm & Hd & Hfree & -> & Hcase)|
                   (_ & _ & _ & _ & _ & r & cs & b & _ & _ & _ & _ & Hb)]]].
  - done.
  - done.
  - done.
  - assert (path_exists path (after_request url path w) = false) as Hm'.
    { apply path_exists_false. split.
      - by apply path_exists_false in Hm as [? _].
      - rewrite strip_id by done. by apply path_not_in_made. }
    split; [done|].
    destruct (_download_if_missing url path (after_request url path w))
      as [w'' e'] eqn:H2.
    exists w'', e'. split; [done|].
    apply download_cases in H2.
    destruct H2 as [(Hex & _)|
                    [(_ & _ & [[Hd' _]|[[(a & Ha & Hf) _]|[Hf _]]])|
                     [(_ & _ & _ & -> & _)|
                      (_ & _ & _ & _ & _ & r & cs & b & _ & _ & _ & -> & _)]]].
    + congruence.
    + done.
    + simpl in Hf. rewrite (Hfree a) in Hf; [by destruct Hf|by right].
    + simpl in Hf. rewrite (Hfree (dirname path)) in Hf;
        [by destruct Hf|by left].
    + simpl. by rewrite <- app_assoc.
    + destruct (write_all_frame path cs
                  (create_file path
                     (after_request url path (after_request url path w))))
        as (_ & -> & _).
      simpl. by rewrite <- app_assoc.
  - destruct b; [|done]. by injection Hb as Hx.
Qed.

Lemma failed_download_is_retried_witness :
  path_exists ZONE_PATH (after_request ZONE_URL ZONE_PATH sample_world_403)
  = false
  ∧ ∃ w'' e',
      _download_if_missing ZONE_URL ZONE_PATH
        (after_request ZONE_URL ZONE_PATH sample_world_403) = (w'', e')
      ∧ requests_sent w''
        = requests_sent sample_world_403 ++ [ZONE_URL; ZONE_URL].
Proof.
  apply (failed_download_is_retried ZONE_URL ZONE_PATH sample_world_403
           (after_request ZONE_URL ZONE_PATH sample_world_403) (HTTPError 403)).
  - reflexivity.
  - right. exists 403. reflexivity.
  - vm_compute. reflexivity.
Defined.

(** ** Fetching the two sources *)

Lemma download_returns url path w w' :
  _download_if_missing url path w = (w', None) →
  path_exists path w' = true
  ∧ requests_sent w'
    = requests_sent w ++ (if path_exists path w then [] else [url])
  ∧ (path_exists path w = true → w' = w)
  ∧ (∀ p, p ≠ path →
          ¬ In (if all_slashes p then p else rstrip_slashes p)
               (dirname path :: parents (dirname path)) →
          path_exists p w' = path_exists p w).
Proof.
  intros H. apply download_cases in H.
  destruct H as [(Hp & -> & _)|[(_ & _ & [[_ [=]]|[[_ [=]]|[_ [=]]]])|
                 [(_ & _ & _ & _ & [[_ [=]]|[(r & _ & _ & [=])|
                                             (r & _ & _ & _ & [=])]])|
                  (Hp & _ & _ & _ & _ & r & cs & b & _ & _ & _ & -> & Hb)]]].
  - rewrite Hp. by rewrite app_nil_r.
  - rewrite Hp.
    destruct (write_all_frame path cs
                (create_file path (after_request url path w)))
      as (Hd & Hr & Hf).
    split; [apply path_exists_file; rewrite written_file; eauto|].
    split; [by rewrite Hr|]. split; [done|].
    intros p Hne Hnd. unfold path_exists. rewrite Hd, Hf by done.
    cbn [create_file after_request files dirs].
    rewrite lookup_insert_ne by done. f_equal.
    apply bool_decide_ext.
    rewrite elem_of_union, elem_of_list_to_set, list_elem_of_In.
    split; [intros [?|?]; [done|done]|by right].
Qed.

(** X23.  When [load_data] gets past its two fetches, both local files
    exist; a request has been sent for each file that was missing and for no
    other, the trip file first; and with both files present the fetches
    change nothing at all. *)
Theorem fetch_sources_returns w w' :
  fetch_sources w = (w', None) →
  path_exists TRIP_PATH w' = true
  ∧ path_exists ZONE_PATH w' = true
  ∧ requests_sent w'
    = requests_sent w
      ++ (if path_exists TRIP_PATH w then [] else [TRIP_URL])
      ++ (if path_exists ZONE_PATH w then [] else [ZONE_URL])
  ∧ (path_exists TRIP_PATH w = true → path_exists ZONE_PATH w = true →
     w' = w).
Proof.
  unfold fetch_sources.
  destruct (_download_if_missing TRIP_URL TRIP_PATH w) as [w1 [e|]] eqn:H1;
    [done|].
  intros H2.
  apply download_returns in H1. destruct H1 as (Ht1 & Hr1 & Hsame1 & Hother1).
  apply download_returns in H2. destruct H2 as (Hz2 & Hr2 & Hsame2 & Hother2).
  assert (path_exists ZONE_PATH w1 = path_exists ZONE_PATH w) as Hz1.
  { apply Hother1; [vm_compute; discriminate|].
    vm_compute. intros [H|[H|[]]]; discriminate H. }
  assert (path_exists TRIP_PATH w' = path_exists TRIP_PATH w1) as Ht2.
  { apply Hother2; [vm_compute; discriminate|].
    vm_compute. intros [H|[H|[]]]; discriminate H. }
  split; [congruence|]. split; [done|]. split.
  - rewrite Hr2, Hr1, Hz1. by rewrite <- app_assoc.
  - intros Ht Hz. assert (w1 = w) as Hw1 by exact (Hsame1 Ht).
    rewrite <- Hw1. apply Hsame2. rewrite Hz1. exact Hz.
Qed.

Lemma fetch_sources_returns_witness :
  ∃ w', fetch_sources sample_world_trip_only = (w', None)
        ∧ path_exists TRIP_PATH w' = true
        ∧ path_exists ZONE_PATH w' = true
        ∧ requests_sent w' = [ZONE_URL].
Proof.
  eexists. split; [vm_compute; reflexivity|].
  match goal with
  | |- path_exists _ ?w' = _ ∧ _ =>
      destruct (fetch_sources_returns sample_world_trip_only w')
        as (Ht & Hz & Hr & _)
  end.
  - vm_compute. reflexivity.
  - split; [exact Ht|]. split; [exact Hz|]. rewrite Hr. reflexivity.
Defined.

(** ** Paths *)

Lemma upto_last_slash_app d s h :
  upto_last_slash s = Some h → upto_last_slash (d +:+ s) = Some (d +:+ h).
Proof.
  intros Hs. induction d as [|c d IH]; simpl; [done|]. by rewrite IH.
Qed.

Lemma all_slashes_app_false d s :
  ends_with_slash d = false → d ≠ EmptyString → all_slashes (d +:+ s) = false.
Proof.
  induction d as [|c d IH]; [done|]. intros He _. simpl.
  destruct (Ascii.eqb c slash) eqn:Ec; [|done]. simpl.
  destruct d as [|c' d']; [simpl in He; congruence|].
  apply IH; [exact He|done].
Qed.

Lemma rstrip_slashes_app_slash d :
  ends_with_slash d = false →
  rstrip_slashes (d +:+ String slash EmptyString) = d.
Proof.
  induction d as [|c d IH]; [done|]. intros He.
  change (String c d +:+ String slash EmptyString)
    with (String c (d +:+ String slash EmptyString)).
  cbn [rstrip_slashes].
  pose proof (all_slashes_app_false (String c d) (String slash EmptyString)
                He ltac:(done)) as Ha.
  change (String c d +:+ String slash EmptyString)
    with (String c (d +:+ String slash EmptyString)) in Ha.
  rewrite Ha. f_equal. destruct d as [|c' d']; [done|]. by apply IH.
Qed.

(** X24.  The directory of a path made by joining a directory and a file
    name is that directory, when the directory is not empty and does not end
    with a slash and the file name holds no slash: the directory the fetcher
    makes for either source file is [RAW_DIR]. *)
Theorem dirname_path_join d f :
  d ≠ EmptyString → ends_with_slash d = false →
  slash ∉ list_ascii_of_string f →
  dirname (path_join d f) = d.
Proof.
  intros Hd He Hf. unfold path_join.
  assert (starts_with_slash f = false) as ->.
  { destruct f as [|c f]; [done|]. simpl in *.
    apply not_elem_of_cons in Hf. destruct Hf as [Hc _].
    destruct (Ascii.eqb_spec c slash); congruence. }
  rewrite He, orb_false_r.
  destruct (String.eqb_spec d EmptyString) as [|_]; [done|].
  unfold dirname.
  rewrite (upto_last_slash_app d (String slash f) (String slash EmptyString)).
  2:{ simpl. by rewrite upto_last_slash_none. }
  simpl. rewrite all_slashes_app_false by done.
  by apply rstrip_slashes_app_slash.
Qed.

Lemma dirname_path_join_witness :
  path_join RAW_DIR "taxi_zone_lookup.csv" = ZONE_PATH
  ∧ dirname (path_join RAW_DIR "taxi_zone_lookup.csv") = RAW_DIR.
Proof.
  split; [reflexivity|].
  apply (dirname_path_join RAW_DIR "taxi_zone_lookup.csv").
  - discriminate.
  - reflexivity.
  - vm_compute. intros H.
    repeat (apply elem_of_cons in H; destruct H as [H|H]; [discriminate H|]).
    by apply elem_of_nil in H.
Defined.
